(** * agent.py: a shallow embedding of the example agents

    The source file is a collection of call patterns around a chat-completion
    client.  The embedding keeps the Python data as it is (strings, lists of
    records, content blocks), threads the client explicitly as a scripted
    oracle that logs every completion request, and gives fallible Python
    expressions an outcome type that records the exception raised.

    Python [str] values are Rocq strings whose characters are read as code
    points below 256; [str.lower], [str.split] and [str.isspace] are modelled
    on that range exactly as CPython defines them there. *)

From Stdlib Require Import String Ascii List ZArith Lia Bool Arith PeanoNat.
From Stdlib Require Import Numbers.DecimalString.
Import ListNotations.
Open Scope list_scope.
Open Scope string_scope.

(** ** Python strings *)

Module PyStr.

Definition chr (n : nat) : string := String (ascii_of_nat n) EmptyString.

(** The line feed, written [\n] in the source. *)
Definition nl : string := chr 10.

(** [c.isspace()] for a code point below 256: the ASCII controls 9..13 and
    28..31, the blank, NEL (133) and the no-break space (160). *)
Definition isspace (c : ascii) : bool :=
  let n := nat_of_ascii c in
  (((9 <=? n) && (n <=? 13)) || ((28 <=? n) && (n <=? 32))
   || (n =? 133) || (n =? 160))%nat.

(** [c.lower()] for a code point below 256: A..Z and the Latin-1 capitals
    192..222 (the multiplication sign 215 apart) move up by 32. *)
Definition lower_char (c : ascii) : ascii :=
  let n := nat_of_ascii c in
  if (((65 <=? n) && (n <=? 90))
      || ((192 <=? n) && (n <=? 222) && negb (n =? 215)))%nat
  then ascii_of_nat (n + 32) else c.

Fixpoint lower (s : string) : string :=
  match s with
  | EmptyString => EmptyString
  | String c s' => String (lower_char c) (lower s')
  end.

Fixpoint startswith (prefix s : string) : bool :=
  match prefix, s with
  | EmptyString, _ => true
  | String a p, String b s' => Ascii.eqb a b && startswith p s'
  | String _ _, EmptyString => false
  end.

(** [needle in hay] *)
Fixpoint contains (needle hay : string) : bool :=
  startswith needle hay ||
  match hay with
  | EmptyString => false
  | String _ hay' => contains needle hay'
  end.

Definition is_empty (s : string) : bool :=
  match s with EmptyString => true | String _ _ => false end.

(** [s.split()] with no separator: runs of whitespace separate the tokens and
    no empty token is produced.  [cur] is the token being read. *)
Fixpoint split_from (cur s : string) : list string :=
  match s with
  | EmptyString => if is_empty cur then [] else [cur]
  | String c s' =>
      if isspace c
      then ((if is_empty cur then [] else [cur])
              ++ split_from EmptyString s')%list
      else split_from (cur ++ String c EmptyString) s'
  end.

Definition split (s : string) : list string := split_from EmptyString s.

(** [sep.join(items)] *)
Fixpoint join (sep : string) (items : list string) : string :=
  match items with
  | [] => EmptyString
  | [x] => x
  | x :: rest => x ++ sep ++ join sep rest
  end.

Fixpoint all_chars (p : ascii -> bool) (s : string) : bool :=
  match s with
  | EmptyString => true
  | String c s' => p c && all_chars p s'
  end.

Fixpoint last_char (s : string) : option ascii :=
  match s with
  | EmptyString => None
  | String c EmptyString => Some c
  | String _ s' => last_char s'
  end.

(** [str(z)] for an integer. *)
Definition str_int (z : Z) : string := NilZero.string_of_int (Z.to_int z).

End PyStr.

Import PyStr.

(** ** Retrieval step of [rag_agent] *)

Module Retrieval.

(** The condition of the list comprehension:
    [any(keyword.lower() in doc.lower() for keyword in query.split())]. *)
Definition relevant (query doc : string) : bool :=
  existsb (fun keyword => contains (lower keyword) (lower doc)) (split query).

(** [relevant_docs = [doc for doc in kb if any(...)]] *)
Definition relevant_docs (query : string) (kb : list string) : list string :=
  filter (relevant query) kb.

(** [relevant_docs[:3]], the documents that reach the prompt. *)
Definition selected_docs (query : string) (kb : list string) : list string :=
  firstn 3 (relevant_docs query kb).

Definition retrieve_context (query : string) (kb : list string) : string :=
  join (nl ++ nl) (selected_docs query kb).

(** The sample knowledge base of the usage examples. *)
Definition doc_founded : string := "Our company was founded in 2020.".
Definition doc_services : string := "We offer cloud services and AI solutions.".
Definition doc_headquarters : string := "Our headquarters is in San Francisco.".
Definition kb : list string := [doc_founded; doc_services; doc_headquarters].

(** A knowledge base in which four documents hold the token [alpha]. *)
Definition kb_alpha : list string :=
  ["alpha one"; "alpha two"; "alpha three"; "alpha four"].

(** *** What the prose calls a token and a substring *)

(** [k] occurs somewhere inside [d]. *)
Definition is_substring (k d : string) : Prop :=
  exists pre post, d = pre ++ k ++ post.

Definition no_space (t : string) : Prop :=
  all_chars (fun c => negb (isspace c)) t = true.

Definition space_before (pre : string) : Prop :=
  match last_char pre with
  | None => True
  | Some c => isspace c = true
  end.

Definition space_after (post : string) : Prop :=
  match post with
  | EmptyString => True
  | String c _ => isspace c = true
  end.

(** A whitespace-delimited token of [q]: a non-empty run of characters that
    are not whitespace, bounded on each side by whitespace or by an end of
    the string. *)
Definition is_token (q t : string) : Prop :=
  t <> EmptyString /\ no_space t /\
  exists pre post, q = pre ++ t ++ post /\ space_before pre /\ space_after post.

(** The tokens still to come when [cur] has been read and [s] remains: the
    one that continues [cur], or one that starts after a whitespace of [s]. *)
Definition token_from (cur s t : string) : Prop :=
  (exists w rest, s = w ++ rest /\ no_space w /\ space_after rest
                  /\ t = cur ++ w /\ t <> EmptyString)
  \/ (exists pre post, s = pre ++ t ++ post /\ pre <> EmptyString
                       /\ space_before pre /\ space_after post
                       /\ t <> EmptyString /\ no_space t).

(** Some token of the query is a case-insensitive substring of the document. *)
Definition token_match (query doc : string) : Prop :=
  exists t, is_token query t /\ is_substring (lower t) (lower doc).

End Retrieval.

(** ** Outcomes of Python calls *)

Inductive exn : Type :=
| IndexError
| AttributeError
| KeyError
| TypeError
| ZeroDivisionError
| OtherException (name : string).

(** What a call does: it returns a value, it raises, or it does not come
    back at all (evaluated code may loop or end the process). *)
Inductive outcome (A : Type) : Type :=
| Returned (a : A)
| Raised (e : exn)
| NoReturn.

Arguments Returned {A} a.
Arguments Raised {A} e.
Arguments NoReturn {A}.

Definition bind {A B : Type} (m : outcome A) (f : A -> outcome B) : outcome B :=
  match m with
  | Returned a => f a
  | Raised e => Raised e
  | NoReturn => NoReturn
  end.

Notation "x <- m ;; k" := (bind m (fun x => k))
  (at level 61, m at next level, right associativity).

(** ** Messages, content blocks and the completion client *)

(** A JSON value of a tool input: a string, or anything else, kept as the
    text [str] gives for it. *)
Inductive json : Type :=
| JStr (s : string)
| JOther (rendering : string).

(** [block.input], a dict, as its list of items (keys are distinct). *)
Definition tool_input : Type := list (string * json).

Inductive block : Type :=
| TextBlock (text : string)
| ToolUseBlock (id : string) (name : string) (input : tool_input)
| ThinkingBlock (thinking : string).

Record response : Type := {
  stop_reason : string;
  content : list block
}.

(** [{"type": "tool_result", "tool_use_id": ..., "content": ...}] *)
Record tool_result : Type := {
  tool_use_id : string;
  result_content : string
}.

Inductive role : Type := user | assistant.

Inductive message_content : Type :=
| Text (s : string)
| Blocks (blocks : list block)
| ToolResults (results : list tool_result).

(** [{"role": ..., "content": ...}] *)
Record message : Type := {
  msg_role : role;
  msg_content : message_content
}.

Record property : Type := {
  prop_name : string;
  prop_type : string;
  prop_description : option string
}.

Record tool_schema : Type := {
  tool_name : string;
  tool_description : string;
  properties : list property;
  required : list string
}.

(** The keyword arguments of [client.messages.create]. *)
Record request : Type := {
  req_model : string;
  req_max_tokens : Z;
  req_tools : list tool_schema;
  req_messages : list message
}.

(** The client is a scripted oracle: its k-th completion request is answered
    by [script k], and every request is kept in [issued], oldest first. *)
Record client : Type := {
  script : nat -> response;
  issued : list request
}.

Definition messages_create (c : client) (req : request) : response * client :=
  (script c (List.length (issued c)),
   {| script := script c; issued := (issued c ++ [req])%list |}).

Definition fresh_client (responses : nat -> response) : client :=
  {| script := responses; issued := [] |}.

(** The response the client will give to its [i]-th request from now on. *)
Definition upcoming (c : client) (i : nat) : response :=
  script c (List.length (issued c) + i).

(** The number of requests issued between two states of the client. *)
Definition requests_between (before after : client) : nat :=
  List.length (issued after) - List.length (issued before).

Definition model_id : string := "claude-sonnet-4-20250514".

(** [response.content[0].text] *)
Definition content0_text (r : response) : outcome string :=
  match content r with
  | [] => Raised IndexError
  | TextBlock t :: _ => Returned t
  | _ :: _ => Raised AttributeError
  end.

(** ** 1. [basic_agent] *)

Module Basic.

(** The run of one call: what the call gives back, the contents of the
    history list object when the call ends (the list is extended in place and
    is the very object that is returned), and the client. *)
Record run : Type := {
  result : outcome (string * list message);
  history_object : list message;
  client_after : client
}.

Definition basic_agent (c : client) (user_message : string)
    (conversation_history : option (list message)) : run :=
  let conversation_history :=
    match conversation_history with
    | None => []
    | Some h => h
    end in
  let conversation_history :=
    (conversation_history
       ++ [{| msg_role := user; msg_content := Text user_message |}])%list in
  let (response, c) :=
    messages_create c {| req_model := model_id; req_max_tokens := 1024;
                         req_tools := [];
                         req_messages := conversation_history |} in
  match content0_text response with
  | Returned assistant_message =>
      let conversation_history :=
        (conversation_history
           ++ [{| msg_role := assistant;
                  msg_content := Text assistant_message |}])%list in
      {| result := Returned (assistant_message, conversation_history);
         history_object := conversation_history;
         client_after := c |}
  | Raised e =>
      {| result := Raised e; history_object := conversation_history;
         client_after := c |}
  | NoReturn =>
      {| result := NoReturn; history_object := conversation_history;
         client_after := c |}
  end.

(** The history the call starts from: the list given, or a new empty one. *)
Definition prior_history (conversation_history : option (list message))
  : list message :=
  match conversation_history with
  | None => []
  | Some h => h
  end.

Definition user_record (user_message : string) : message :=
  {| msg_role := user; msg_content := Text user_message |}.

Definition assistant_record (assistant_message : string) : message :=
  {| msg_role := assistant; msg_content := Text assistant_message |}.

(** A client whose every response has no content block at all. *)
Definition empty_reply : client :=
  fresh_client (fun _ => {| stop_reason := "end_turn"; content := [] |}).

(** A client whose every response is one text block. *)
Definition greeting_reply : client :=
  fresh_client (fun _ => {| stop_reason := "end_turn";
                            content := [TextBlock "Hi there"] |}).

End Basic.

(** ** 2. [tool_using_agent] *)

Module ToolAgent.

(** *** An arithmetic fragment of [eval]

    [eval] is the whole expression language and lies outside the source.
    It is pinned down on a small fragment where its meaning is plain: one
    decimal literal, or two literals joined by [+], [-], [*], [//] or [%],
    with blanks and tabs around the tokens.  A literal has at most 18 digits
    and no leading zero.  Every other source text is left to a parameter. *)

Inductive binop : Type := Add | Sub | Mul | FloorDiv | Mod.

Inductive arith : Type :=
| Lit (n : Z)
| Bin (op : binop) (a b : Z).

Definition is_blank (c : ascii) : bool :=
  ((nat_of_ascii c =? 32) || (nat_of_ascii c =? 9))%nat.

Definition digit_value (c : ascii) : option Z :=
  let n := nat_of_ascii c in
  if ((48 <=? n) && (n <=? 57))%nat then Some (Z.of_nat (n - 48)) else None.

Fixpoint skip_blanks (s : string) : string :=
  match s with
  | String c s' => if is_blank c then skip_blanks s' else s
  | EmptyString => EmptyString
  end.

(** The digits at the head of [s], most significant first, and what follows. *)
Fixpoint read_digits (s : string) : list Z * string :=
  match s with
  | String c s' =>
      match digit_value c with
      | Some d => let (ds, rest) := read_digits s' in (d :: ds, rest)
      | None => ([], s)
      end
  | EmptyString => ([], EmptyString)
  end.

Definition digits_value (ds : list Z) : Z :=
  fold_left (fun acc d => (10 * acc + d)%Z) ds 0%Z.

Definition read_literal (s : string) : option (Z * string) :=
  let (ds, rest) := read_digits s in
  match ds with
  | [] => None
  | [d] => Some (d, rest)
  | d :: _ =>
      if ((d =? 0)%Z || (18 <? List.length ds)%nat)%bool then None
      else Some (digits_value ds, rest)
  end.

Definition read_binop (s : string) : option (binop * string) :=
  match s with
  | String "+" rest => Some (Add, rest)
  | String "-" rest => Some (Sub, rest)
  | String "*" rest => Some (Mul, rest)
  | String "%" rest => Some (Mod, rest)
  | String "/" (String "/" rest) => Some (FloorDiv, rest)
  | _ => None
  end.

Definition parse_arith (source : string) : option arith :=
  match read_literal (skip_blanks source) with
  | None => None
  | Some (a, rest) =>
      match skip_blanks rest with
      | EmptyString => Some (Lit a)
      | rest =>
          match read_binop rest with
          | None => None
          | Some (op, rest) =>
              match read_literal (skip_blanks rest) with
              | None => None
              | Some (b, rest) =>
                  match skip_blanks rest with
                  | EmptyString => Some (Bin op a b)
                  | _ => None
                  end
              end
          end
      end
  end.

Definition eval_arith (e : arith) : outcome Z :=
  match e with
  | Lit n => Returned n
  | Bin Add a b => Returned (a + b)%Z
  | Bin Sub a b => Returned (a - b)%Z
  | Bin Mul a b => Returned (a * b)%Z
  | Bin FloorDiv a b =>
      if (b =? 0)%Z then Raised ZeroDivisionError else Returned (a / b)%Z
  | Bin Mod a b =>
      if (b =? 0)%Z then Raised ZeroDivisionError else Returned (a mod b)%Z
  end.

Section Tools.

(** [str(eval(source))] for a source text outside the fragment. *)
Variable str_eval_other : string -> outcome string.

(** [str(eval(expression))]; [eval] of a value that is not a string raises
    [TypeError]. *)
Definition str_eval (expression : json) : outcome string :=
  match expression with
  | JOther _ => Raised TypeError
  | JStr source =>
      match parse_arith source with
      | Some e => z <- eval_arith e ;; Returned (str_int z)
      | None => str_eval_other source
      end
  end.

(** The [try] with a bare [except]: whatever is raised becomes the fixed
    string. *)
Definition calculator (expression : json) : outcome string :=
  match str_eval expression with
  | Returned s => Returned s
  | Raised _ => Returned "Invalid expression"
  | NoReturn => NoReturn
  end.

(** [f"{value}"] *)
Definition format_value (v : json) : string :=
  match v with
  | JStr s => s
  | JOther rendering => rendering
  end.

Definition get_weather (location : json) : string :=
  "The weather in " ++ format_value location ++ " is sunny, 72"
    ++ chr 194 ++ chr 176 ++ "F".

(** Unpacking [tool_input] as the keyword arguments of a function of one
    parameter: the dict must consist of that one key. *)
Definition bind_kwargs (parameter : string) (input : tool_input)
  : outcome json :=
  match input with
  | [(key, value)] =>
      if String.eqb key parameter then Returned value else Raised TypeError
  | _ => Raised TypeError
  end.

(** The dispatch [tool_functions[tool_name]] applied to the keyword
    arguments of [tool_input]: an unknown name is a [KeyError]. *)
Definition call_tool (tool_name : string) (input : tool_input)
  : outcome string :=
  if String.eqb tool_name "get_weather" then
    location <- bind_kwargs "location" input ;;
    Returned (get_weather location)
  else if String.eqb tool_name "calculator" then
    expression <- bind_kwargs "expression" input ;;
    calculator expression
  else Raised KeyError.

(** The [for block in response.content] loop that fills [tool_results]. *)
Fixpoint run_tools (blocks : list block) : outcome (list tool_result) :=
  match blocks with
  | [] => Returned []
  | ToolUseBlock id name input :: rest =>
      result <- call_tool name input ;;
      tool_results <- run_tools rest ;;
      Returned ({| tool_use_id := id; result_content := result |}
                  :: tool_results)
  | _ :: rest => run_tools rest
  end.

Definition tools : list tool_schema :=
  [ {| tool_name := "get_weather";
       tool_description := "Get the current weather for a location";
       properties :=
         [ {| prop_name := "location"; prop_type := "string";
              prop_description := Some "City name, e.g. San Francisco, CA" |} ];
       required := ["location"] |};
    {| tool_name := "calculator";
       tool_description := "Perform mathematical calculations";
       properties :=
         [ {| prop_name := "expression"; prop_type := "string";
              prop_description :=
                Some "Mathematical expression to evaluate" |} ];
       required := ["expression"] |} ].

Definition initial_messages : list message :=
  [ {| msg_role := user;
       msg_content :=
         Text "What's the weather in Paris and what's 15 * 23?" |} ].

(** The state of the [while True] loop between two iterations. *)
Record loop_state : Type := {
  messages : list message;
  loop_client : client
}.

Inductive step_result : Type :=
| Continue (st : loop_state)
| Stop (final : outcome string) (st : loop_state).

(** One iteration of the loop. *)
Definition loop_body (st : loop_state) : step_result :=
  let (response, c) :=
    messages_create (loop_client st)
      {| req_model := model_id; req_max_tokens := 1024; req_tools := tools;
         req_messages := messages st |} in
  if String.eqb (stop_reason response) "tool_use" then
    match run_tools (content response) with
    | Returned tool_results =>
        Continue
          {| messages :=
               (messages st
                  ++ [ {| msg_role := assistant;
                          msg_content := Blocks (content response) |};
                       {| msg_role := user;
                          msg_content := ToolResults tool_results |} ])%list;
             loop_client := c |}
    | Raised e =>
        Stop (Raised e) {| messages := messages st; loop_client := c |}
    | NoReturn =>
        Stop NoReturn {| messages := messages st; loop_client := c |}
    end
  else
    Stop (content0_text response)
      {| messages := messages st; loop_client := c |}.

(** The loop run for at most [fuel] iterations: [None] says that the loop is
    still running after them. *)
Fixpoint loop (fuel : nat) (st : loop_state)
  : option (outcome string) * loop_state :=
  match fuel with
  | O => (None, st)
  | S fuel' =>
      match loop_body st with
      | Continue st' => loop fuel' st'
      | Stop final st' => (Some final, st')
      end
  end.

Definition tool_using_agent (fuel : nat) (c : client)
  : option (outcome string) * loop_state :=
  loop fuel {| messages := initial_messages; loop_client := c |}.

End Tools.

(** The client once the request of the current iteration has gone out. *)
Definition after_request (st : loop_state) : client :=
  snd (messages_create (loop_client st)
         {| req_model := model_id; req_max_tokens := 1024; req_tools := tools;
            req_messages := messages st |}).

(** The identifiers of the tool-use blocks of a response, in order. *)
Definition tool_use_ids (blocks : list block) : list string :=
  flat_map (fun b => match b with
                     | ToolUseBlock id _ _ => [id]
                     | _ => []
                     end) blocks.

(** The tool results of a response whose tools all return. *)
Definition results_of (str_eval_other : string -> outcome string)
    (blocks : list block) : list tool_result :=
  match run_tools str_eval_other blocks with
  | Returned tool_results => tool_results
  | _ => []
  end.

(** The two records one tool-use response adds to [messages]. *)
Definition turn_records (str_eval_other : string -> outcome string)
    (r : response) : list message :=
  [ {| msg_role := assistant; msg_content := Blocks (content r) |};
    {| msg_role := user;
       msg_content := ToolResults (results_of str_eval_other (content r)) |} ].

(** An evaluator that rejects every text outside the fragment. *)
Definition rejecting (source : string) : outcome string :=
  Raised (OtherException "SyntaxError").

(** A script that asks for the weather at every request. *)
Definition weather_forever (i : nat) : response :=
  {| stop_reason := "tool_use";
     content :=
       [ToolUseBlock "toolu_01" "get_weather" [("location", JStr "Paris")]] |}.

(** A script that asks for both tools at once and then answers. *)
Definition both_tools_then_answer (i : nat) : response :=
  match i with
  | O =>
      {| stop_reason := "tool_use";
         content :=
           [ TextBlock "Let me look that up.";
             ToolUseBlock "toolu_01" "get_weather" [("location", JStr "Paris")];
             ToolUseBlock "toolu_02" "calculator"
               [("expression", JStr "15 * 23")] ] |}
  | S _ =>
      {| stop_reason := "end_turn";
         content := [TextBlock "Paris is sunny and 15 * 23 is 345."] |}
  end.

(** A script whose first response asks for a tool that is not in
    [tool_functions]. *)
Definition unknown_tool (i : nat) : response :=
  {| stop_reason := "tool_use";
     content :=
       [ToolUseBlock "toolu_01" "get_time" [("zone", JStr "Europe/Paris")]] |}.

End ToolAgent.

(** ** 3. [rag_agent] *)

Module Rag.

Import Retrieval.

Definition prompt (context query : string) : string :=
  "Use the following context to answer the question." ++ nl
    ++ "            " ++ nl
    ++ "Context:" ++ nl
    ++ context ++ nl
    ++ nl
    ++ "Question: " ++ query ++ nl
    ++ nl
    ++ "Answer based on the context provided.".

Definition rag_agent (c : client) (query : string)
    (knowledge_base : list string) : outcome string * client :=
  let context := retrieve_context query knowledge_base in
  let (response, c) :=
    messages_create c
      {| req_model := model_id; req_max_tokens := 1024; req_tools := [];
         req_messages :=
           [ {| msg_role := user;
                msg_content := Text (prompt context query) |} ] |} in
  (content0_text response, c).

End Rag.

(** ** 6. [AutonomousAgent] *)

Module Autonomous.

Record AutonomousAgent : Type := {
  agent_client : client;
  conversation_history : list message;
  agent_tools : list tool_schema
}.

Definition _define_tools : list tool_schema :=
  [ {| tool_name := "search_web";
       tool_description := "Search for information on the web";
       properties :=
         [ {| prop_name := "query"; prop_type := "string";
              prop_description := None |} ];
       required := ["query"] |};
    {| tool_name := "save_to_file";
       tool_description := "Save content to a file";
       properties :=
         [ {| prop_name := "filename"; prop_type := "string";
              prop_description := None |};
           {| prop_name := "content"; prop_type := "string";
              prop_description := None |} ];
       required := ["filename"; "content"] |} ].

(** The client stands for the one built from the key. *)
Definition __init__ (c : client) : AutonomousAgent :=
  {| agent_client := c; conversation_history := [];
     agent_tools := _define_tools |}.

Definition task_prompt (task : string) : string :=
  "Complete this task: " ++ task ++ nl
    ++ "            " ++ nl
    ++ "You can use available tools. "
    ++ "Think step by step and use tools as needed.".

(** [next((block.text for block in content if hasattr(block, 'text')), None)] *)
Fixpoint first_text (blocks : list block) : option string :=
  match blocks with
  | [] => None
  | TextBlock text :: _ => Some text
  | _ :: rest => first_text rest
  end.

(** The mocked tool execution: one result per block of type tool_use. *)
Fixpoint mock_tool_results (blocks : list block) : list tool_result :=
  match blocks with
  | [] => []
  | ToolUseBlock id name _ :: rest =>
      {| tool_use_id := id;
         result_content := "Tool " ++ name ++ " executed successfully" |}
        :: mock_tool_results rest
  | _ :: rest => mock_tool_results rest
  end.

Definition append_message (self : AutonomousAgent) (m : message)
  : AutonomousAgent :=
  {| agent_client := agent_client self;
     conversation_history := (conversation_history self ++ [m])%list;
     agent_tools := agent_tools self |}.

Definition sentinel : string := "Max iterations reached".

(** The [for iteration in range(max_iterations)] loop, with [remaining]
    iterations to go.  The value is what [execute_task] returns: a string, or
    [None] for Python's [None]. *)
Fixpoint iterate (remaining : nat) (self : AutonomousAgent)
  : option string * AutonomousAgent :=
  match remaining with
  | O => (Some sentinel, self)
  | S remaining' =>
      let (response, c) :=
        messages_create (agent_client self)
          {| req_model := model_id; req_max_tokens := 2048;
             req_tools := agent_tools self;
             req_messages := conversation_history self |} in
      let self :=
        {| agent_client := c;
           conversation_history := conversation_history self;
           agent_tools := agent_tools self |} in
      if String.eqb (stop_reason response) "end_turn" then
        (first_text (content response), self)
      else if String.eqb (stop_reason response) "tool_use" then
        let self :=
          append_message self
            {| msg_role := assistant;
               msg_content := Blocks (content response) |} in
        let tool_results := mock_tool_results (content response) in
        let self :=
          append_message self
            {| msg_role := user; msg_content := ToolResults tool_results |} in
        iterate remaining' self
      else iterate remaining' self
  end.

(** [range(max_iterations)] is empty for a count that is not positive. *)
Definition execute_task (self : AutonomousAgent) (task : string)
    (max_iterations : Z) : option string * AutonomousAgent :=
  let self :=
    {| agent_client := agent_client self;
       conversation_history :=
         [ {| msg_role := user; msg_content := Text (task_prompt task) |} ];
       agent_tools := agent_tools self |} in
  iterate (Z.to_nat max_iterations) self.

(** The default of the parameter [max_iterations]. *)
Definition default_max_iterations : Z := 10.

(** The completion requests a call of [execute_task] issues. *)
Definition requests_issued (before after : AutonomousAgent) : nat :=
  requests_between (agent_client before) (agent_client after).

(** [hasattr(block, 'text')] *)
Definition has_text (b : block) : bool :=
  match b with
  | TextBlock _ => true
  | _ => false
  end.

(** What the prose says of the value returned at the end of a turn: the text
    of the first block that carries one, or [None] when no block does. *)
Definition first_text_bearing (blocks : list block) (value : option string)
  : Prop :=
  (exists before text after,
      blocks = (before ++ TextBlock text :: after)%list
      /\ forallb (fun b => negb (has_text b)) before = true
      /\ value = Some text)
  \/ (forallb (fun b => negb (has_text b)) blocks = true /\ value = None).

(** A script that asks for a tool at every request. *)
Definition always_searching (i : nat) : response :=
  {| stop_reason := "tool_use";
     content :=
       [ToolUseBlock "toolu_1" "search_web" [("query", JStr "news")]] |}.

(** A script that asks for a tool twice and then ends its turn, with a
    thinking block before the text. *)
Definition search_then_answer (i : nat) : response :=
  if (i <? 2)%nat then always_searching i
  else {| stop_reason := "end_turn";
          content :=
            [ThinkingBlock "done"; TextBlock "Summary"; TextBlock "more"] |}.

End Autonomous.

(** ** 4. [reasoning_agent] *)

Module Reasoning.

(** The prompt of the planning request, a triple-quoted text whose second
    line holds the indentation of the source. *)
Definition planning_prompt (complex_task : string) : string :=
  "Break down this task into clear steps:" ++ nl
    ++ "            " ++ nl
    ++ "Task: " ++ complex_task ++ nl
    ++ nl
    ++ "Provide a numbered list of steps needed.".

(** The first user turn of the execution request, written with escapes. *)
Definition replayed_prompt (complex_task : string) : string :=
  "Break down this task into clear steps:" ++ nl ++ nl
    ++ "Task: " ++ complex_task ++ nl ++ nl
    ++ "Provide a numbered list of steps needed.".

Definition execute_instruction : string :=
  "Now execute each step and provide the final solution.".

Definition planning_request (complex_task : string) : request :=
  {| req_model := model_id; req_max_tokens := 1024; req_tools := [];
     req_messages :=
       [ {| msg_role := user;
            msg_content := Text (planning_prompt complex_task) |} ] |}.

Definition execution_request (complex_task plan : string) : request :=
  {| req_model := model_id; req_max_tokens := 2048; req_tools := [];
     req_messages :=
       [ {| msg_role := user;
            msg_content := Text (replayed_prompt complex_task) |};
         {| msg_role := assistant; msg_content := Text plan |};
         {| msg_role := user; msg_content := Text execute_instruction |} ] |}.

Definition reasoning_agent (c : client) (complex_task : string)
  : outcome string * client :=
  let (planning_response, c) :=
    messages_create c (planning_request complex_task) in
  match content0_text planning_response with
  | Returned plan =>
      let (execution_response, c) :=
        messages_create c (execution_request complex_task plan) in
      (content0_text execution_response, c)
  | Raised e => (Raised e, c)
  | NoReturn => (NoReturn, c)
  end.

(** A client that answers every request with one text block. *)
Definition steps_reply : client :=
  fresh_client (fun _ => {| stop_reason := "end_turn";
                            content := [TextBlock "1. Book flights"] |}).

(** A client whose responses hold a tool-use block only. *)
Definition tool_only_reply : client :=
  fresh_client
    (fun _ => {| stop_reason := "tool_use";
                 content := [ToolUseBlock "toolu_01" "search_web" []] |}).

End Reasoning.

(** ** 5. [streaming_agent] *)

Module Streaming.

(** Standard output is the text written so far; [print(text, end=e)] adds
    [text] and then [e] to it. *)
Definition print (text end_ : string) (stdout : string) : string :=
  stdout ++ text ++ end_.

(** [text_stream] is the sequence of fragments the opened stream yields; the
    loop prints each one with an empty end, and a bare [print()] follows. *)
Definition streaming_agent (text_stream : list string) (stdout : string)
  : string :=
  let stdout :=
    fold_left (fun stdout text => print text EmptyString stdout)
      text_stream stdout in
  print EmptyString nl stdout.

End Streaming.

(** ** Shape of a conversation history *)

Module Conversation.

(** The request of [basic_agent] for the messages it sends. *)
Definition turn_request (messages : list message) : request :=
  {| req_model := model_id; req_max_tokens := 1024; req_tools := [];
     req_messages := messages |}.

Definition role_eqb (a b : role) : bool :=
  match a, b with
  | user, user | assistant, assistant => true
  | _, _ => false
  end.

Definition other_role (r : role) : role :=
  match r with
  | user => assistant
  | assistant => user
  end.

(** The roles of [h] alternate, the first record having role [first]. *)
Fixpoint alternates (first : role) (h : list message) : bool :=
  match h with
  | [] => true
  | m :: h' =>
      role_eqb (msg_role m) first && alternates (other_role first) h'
  end.

(** The request of one iteration of the tool-dispatch loop. *)
Definition tool_request (messages : list message) : request :=
  {| req_model := model_id; req_max_tokens := 1024;
     req_tools := ToolAgent.tools; req_messages := messages |}.

(** [start] followed by the two records of each of the next [k] responses
    of the client, as the tool-dispatch loop adds them. *)
Definition history_after (str_eval_other : string -> outcome string)
    (c : client) (start : list message) (k : nat) : list message :=
  (start
     ++ flat_map (fun j => ToolAgent.turn_records str_eval_other (upcoming c j))
          (seq 0 k))%list.

(** The request of one iteration of [execute_task]. *)
Definition task_request (agent_tools : list tool_schema)
    (messages : list message) : request :=
  {| req_model := model_id; req_max_tokens := 2048;
     req_tools := agent_tools; req_messages := messages |}.

(** The record [execute_task] opens the history with. *)
Definition task_record (task : string) : message :=
  {| msg_role := user; msg_content := Text (Autonomous.task_prompt task) |}.

(** What one iteration of [execute_task] adds to the history for a response
    that does not end the turn: two records for a tool-use response, nothing
    for any other stop reason. *)
Definition step_records (r : response) : list message :=
  if String.eqb (stop_reason r) "tool_use" then
    [ {| msg_role := assistant; msg_content := Blocks (content r) |};
      {| msg_role := user;
         msg_content :=
           ToolResults (Autonomous.mock_tool_results (content r)) |} ]
  else [].

Definition task_history (c : client) (start : list message) (m : nat)
  : list message :=
  (start ++ flat_map (fun j => step_records (upcoming c j)) (seq 0 m))%list.

(** A script that asks for both tools at once and then ends its turn with
    no content block. *)
Definition tools_then_silence (i : nat) : response :=
  match i with
  | O => ToolAgent.both_tools_then_answer 0
  | S _ => {| stop_reason := "end_turn"; content := [] |}
  end.

(** A response that asks for the weather, then for a tool that is not in
    [tool_functions], then for the weather again. *)
Definition second_tool_unknown : response :=
  {| stop_reason := "tool_use";
     content :=
       [ ToolUseBlock "toolu_01" "get_weather" [("location", JStr "Paris")];
         ToolUseBlock "toolu_02" "get_time" [];
         ToolUseBlock "toolu_03" "get_weather" [("location", JStr "Rome")] ] |}.

(** A script whose responses stop for the token limit. *)
Definition cut_short (i : nat) : response :=
  {| stop_reason := "max_tokens"; content := [TextBlock "Let me"] |}.

End Conversation.

(** * Properties *)

(** ** Strings *)

Module PyStrFacts.

Lemma append_nil_r (s : string) : s ++ EmptyString = s.
Proof. induction s as [|c s IH]; simpl; [reflexivity | now rewrite IH]. Qed.

Lemma append_assoc (a b c : string) : (a ++ b) ++ c = a ++ b ++ c.
Proof. induction a as [|x a IH]; simpl; [reflexivity | now rewrite IH]. Qed.

Lemma append_eq_nil (a b : string) :
  a ++ b = EmptyString -> a = EmptyString /\ b = EmptyString.
Proof. destruct a; simpl; [auto | discriminate]. Qed.

Lemma startswith_spec (p s : string) :
  startswith p s = true <-> exists t, s = p ++ t.
Proof.
  revert s; induction p as [|a p IH]; intros s; simpl.
  - split; [intros _; now exists s | reflexivity].
  - destruct s as [|b s].
    + split; [discriminate | intros [t H]; discriminate].
    + rewrite andb_true_iff, Ascii.eqb_eq, IH. split.
      * intros [-> [t ->]]. now exists t.
      * intros [t H]. injection H as -> ->. split; [reflexivity | now exists t].
Qed.

Lemma contains_spec (k d : string) :
  contains k d = true <-> exists pre post, d = pre ++ k ++ post.
Proof.
  induction d as [|c d IH].
  - simpl. rewrite orb_false_r, startswith_spec. split.
    + intros [t H]. now exists EmptyString, t.
    + intros [pre [post H]]. symmetry in H.
      apply append_eq_nil in H as [-> H]. simpl in H. now exists post.
  - simpl contains. rewrite orb_true_iff, startswith_spec, IH. split.
    + intros [[t H] | [pre [post H]]].
      * now exists EmptyString, t.
      * exists (String c pre), post. simpl. now rewrite H.
    + intros [[|x pre] [post H]].
      * left. now exists post.
      * right. simpl in H. injection H as _ H. now exists pre, post.
Qed.

Lemma last_char_cons (c : ascii) (s : string) :
  s <> EmptyString -> last_char (String c s) = last_char s.
Proof. destruct s; [congruence | reflexivity]. Qed.

Lemma split_whitespace_only (s : string) :
  all_chars isspace s = true -> split s = [].
Proof.
  unfold split. induction s as [|c s IH]; simpl; [reflexivity|].
  intros H. apply andb_true_iff in H as [Hc Hs]. rewrite Hc. simpl. auto.
Qed.

End PyStrFacts.

(** ** Retrieval *)

Module RetrievalFacts.

Import Retrieval PyStrFacts.

Lemma no_space_head (c : ascii) (w : string) :
  no_space (String c w) -> isspace c = false /\ no_space w.
Proof.
  unfold no_space. simpl. intros H. apply andb_true_iff in H as [H1 H2].
  split; [now apply negb_true_iff in H1 | assumption].
Qed.

Lemma no_space_cons (c : ascii) (w : string) :
  isspace c = false -> no_space w -> no_space (String c w).
Proof. unfold no_space. simpl. intros -> ->. reflexivity. Qed.

Lemma space_before_cons (c : ascii) (pre : string) :
  pre <> EmptyString -> (space_before (String c pre) <-> space_before pre).
Proof. intros H. unfold space_before. now rewrite last_char_cons. Qed.

(** At the end of the text only the token being read is left. *)
Lemma token_from_end (cur t : string) :
  token_from cur EmptyString t <-> (t = cur /\ cur <> EmptyString).
Proof.
  unfold token_from. split.
  - intros [(w & rest & E & _ & _ & -> & N) | (pre & post & E & N & _)].
    + symmetry in E. apply append_eq_nil in E as [-> _].
      rewrite append_nil_r in *. auto.
    + symmetry in E. apply append_eq_nil in E as [-> _]. congruence.
  - intros [-> N]. left. exists EmptyString, EmptyString.
    rewrite !append_nil_r. repeat split; auto.
Qed.

(** A whitespace closes the token being read and starts afresh. *)
Lemma token_from_space (cur s t : string) (c : ascii) :
  isspace c = true ->
  token_from cur (String c s) t <->
  (t = cur /\ cur <> EmptyString) \/ token_from EmptyString s t.
Proof.
  intros Hc. unfold token_from. split.
  - intros [(w & rest & E & Hw & _ & -> & N)
           | (pre & post & E & N & Hb & Ha & Nt & Ht)].
    + destruct w as [|x w].
      * rewrite append_nil_r in *. auto.
      * simpl in E. injection E as <- _. apply no_space_head in Hw as [Hx _].
        congruence.
    + right. destruct pre as [|x pre]; [congruence|].
      simpl in E. injection E as <- E.
      destruct pre as [|y pre].
      * left. exists t, post. simpl in E. repeat split; auto.
      * right. exists (String y pre), post. repeat split; auto; congruence.
  - intros [[-> N] | [(w & rest & E & Hw & Ha & -> & N)
                      | (pre & post & E & N & Hb & Ha & Nt & Ht)]].
    + left. exists EmptyString, (String c s). rewrite !append_nil_r.
      repeat split; auto.
    + right. exists (String c EmptyString), rest. simpl in *.
      repeat split; auto; try congruence.
    + right. exists (String c pre), post. simpl. rewrite E.
      repeat split; auto; try congruence.
      now apply space_before_cons.
Qed.

(** Any other character extends the token being read. *)
Lemma token_from_char (cur s t : string) (c : ascii) :
  isspace c = false ->
  token_from cur (String c s) t <->
  token_from (cur ++ String c EmptyString) s t.
Proof.
  intros Hc. unfold token_from. split.
  - intros [(w & rest & E & Hw & Ha & -> & N)
           | (pre & post & E & N & Hb & Ha & Nt & Ht)].
    + left. destruct w as [|x w].
      * simpl in E. subst rest. simpl in Ha. congruence.
      * simpl in E. injection E as <- E. apply no_space_head in Hw as [_ Hw].
        exists w, rest. rewrite append_assoc. simpl. repeat split; auto.
    + right. destruct pre as [|x pre]; [congruence|].
      simpl in E. injection E as <- E.
      destruct pre as [|y pre].
      * unfold space_before in Hb. simpl in Hb. congruence.
      * exists (String y pre), post. repeat split; auto; congruence.
  - intros [(w & rest & E & Hw & Ha & -> & N)
           | (pre & post & E & N & Hb & Ha & Nt & Ht)].
    + left. exists (String c w), rest. rewrite append_assoc in *. simpl in *.
      rewrite E. repeat split; auto. now apply no_space_cons.
    + right. exists (String c pre), post. simpl. rewrite E.
      repeat split; auto; try congruence.
      now apply space_before_cons.
Qed.

Lemma split_from_spec (s cur t : string) :
  In t (split_from cur s) <-> token_from cur s t.
Proof.
  revert cur; induction s as [|c s IH]; intros cur.
  - rewrite token_from_end. simpl.
    destruct cur; simpl; split; intros H.
    + contradiction.
    + destruct H; congruence.
    + destruct H as [<- | []]. split; [reflexivity | discriminate].
    + left. symmetry. apply H.
  - simpl. destruct (isspace c) eqn:Hc.
    + rewrite token_from_space by assumption.
      rewrite in_app_iff, IH.
      destruct cur; simpl; split; intros [H | H]; auto.
      * contradiction.
      * destruct H; congruence.
      * destruct H as [<- | []]. left. split; [reflexivity | discriminate].
      * left. left. symmetry. apply H.
    + rewrite token_from_char by assumption. apply IH.
Qed.

Lemma token_from_start (q t : string) :
  token_from EmptyString q t <-> is_token q t.
Proof.
  unfold token_from, is_token. split.
  - intros [(w & rest & E & Hw & Ha & -> & N)
           | (pre & post & E & N & Hb & Ha & Nt & Ht)].
    + simpl in *. repeat split; auto.
      exists EmptyString, rest. repeat split; auto.
    + repeat split; auto. exists pre, post. auto.
  - intros (Nt & Ht & pre & post & E & Hb & Ha).
    destruct pre as [|x pre].
    + left. exists t, post. simpl in *. auto.
    + right. exists (String x pre), post. repeat split; auto. discriminate.
Qed.

(** [query.split()] lists exactly the whitespace-delimited tokens. *)
Lemma split_spec (q t : string) : In t (split q) <-> is_token q t.
Proof. unfold split. now rewrite split_from_spec, token_from_start. Qed.

(** The filter condition of the source decides [token_match]. *)
Lemma relevant_spec (query doc : string) :
  relevant query doc = true <-> token_match query doc.
Proof.
  unfold relevant, token_match. rewrite existsb_exists. split.
  - intros (t & Hin & Hc). exists t. split.
    + now apply split_spec.
    + now apply contains_spec.
  - intros (t & Ht & Hs). exists t. split.
    + now apply split_spec.
    + now apply contains_spec.
Qed.

(** [rag_agent] issues one request, whose prompt holds the retrieved
    context, and returns the text of the first block of the response. *)
Lemma rag_agent_request (c : client) (query : string) (kb : list string) :
  issued (snd (Rag.rag_agent c query kb))
  = (issued c
       ++ [ {| req_model := model_id; req_max_tokens := 1024; req_tools := [];
               req_messages :=
                 [ {| msg_role := user;
                      msg_content :=
                        Text (Rag.prompt (retrieve_context query kb) query) |} ]
            |} ])%list
  /\ fst (Rag.rag_agent c query kb) = content0_text (upcoming c 0).
Proof.
  unfold Rag.rag_agent, messages_create, upcoming. simpl.
  rewrite Nat.add_0_r. split; reflexivity.
Qed.

Lemma selected_docs_length (query : string) (kb : list string) :
  List.length (selected_docs query kb) <= 3.
Proof. unfold selected_docs. apply firstn_le_length. Qed.

Lemma relevant_docs_in (query doc : string) (kb : list string) :
  In doc (relevant_docs query kb) <-> In doc kb /\ token_match query doc.
Proof. unfold relevant_docs. now rewrite filter_In, relevant_spec. Qed.

Lemma firstn_In (A : Type) (n : nat) (l : list A) (x : A) :
  In x (firstn n l) -> In x l.
Proof.
  intros H. rewrite <- (firstn_skipn n l). apply in_or_app. now left.
Qed.

(** C1, as amended.  The documents that reach the prompt are the first three,
    in knowledge-base order, of the documents for which some
    whitespace-delimited token of the query is a case-insensitive substring:
    the filter condition of the source holds exactly for those documents, at
    most three documents are selected, every selected document is one of
    them, and when no more than three documents of the knowledge base match,
    each of them is selected. *)
Theorem retrieval_selects_first_three_matches (query : string)
    (kb : list string) :
  (forall doc, relevant query doc = true <-> token_match query doc)
  /\ selected_docs query kb = firstn 3 (filter (relevant query) kb)
  /\ List.length (selected_docs query kb) <= 3
  /\ (forall doc, In doc (selected_docs query kb) ->
                  In doc kb /\ token_match query doc)
  /\ (List.length (filter (relevant query) kb) <= 3 ->
      forall doc, In doc kb -> token_match query doc ->
                  In doc (selected_docs query kb)).
Proof.
  split; [intros doc; apply relevant_spec|].
  split; [reflexivity|].
  split; [apply selected_docs_length|].
  split.
  - intros doc H. apply relevant_docs_in. revert H. apply firstn_In.
  - intros Hlen doc Hin Hm. unfold selected_docs, relevant_docs.
    rewrite firstn_all2 by exact Hlen.
    apply relevant_docs_in. auto.
Qed.

(** C1, as stated, fails: with four matching documents the fourth has the
    token of the query and is not selected. *)
Lemma retrieval_fourth_match_not_selected :
  ~ (forall doc, In doc kb_alpha ->
       (In doc (selected_docs "alpha" kb_alpha) <-> token_match "alpha" doc)).
Proof.
  intros H.
  assert (Hin : In "alpha four" kb_alpha) by (simpl; auto).
  destruct (H _ Hin) as [_ Hsel].
  assert (Hm : token_match "alpha" "alpha four")
    by (apply relevant_spec; reflexivity).
  specialize (Hsel Hm). vm_compute in Hsel.
  repeat (destruct Hsel as [Hsel | Hsel]; [discriminate Hsel|]).
  exact Hsel.
Qed.

(** C8.  For the query of the usage example and the three sample documents,
    the document about the founding year is selected and the document about
    the headquarters is not. *)
Theorem retrieval_sample_query :
  In doc_founded (selected_docs "When was the company founded?" kb)
  /\ ~ In doc_headquarters (selected_docs "When was the company founded?" kb).
Proof.
  split.
  - vm_compute. auto.
  - vm_compute. intros [H | []]. discriminate H.
Qed.

(** C9.  A query that is empty or made of whitespace only has no token: no
    document is selected and the context is the empty string. *)
Theorem retrieval_blank_query (query : string) (kb : list string) :
  all_chars isspace query = true ->
  selected_docs query kb = [] /\ retrieve_context query kb = EmptyString.
Proof.
  intros H.
  assert (E : selected_docs query kb = []).
  { unfold selected_docs, relevant_docs, relevant.
    rewrite (split_whitespace_only _ H). simpl.
    induction kb as [|d kb IH]; simpl; auto. }
  split; [exact E|]. unfold retrieve_context. now rewrite E.
Qed.

Lemma retrieval_blank_query_witness :
  all_chars isspace "   " = true
  /\ selected_docs "   " kb = [] /\ retrieve_context "   " kb = EmptyString.
Proof.
  split; [reflexivity | apply (retrieval_blank_query "   " kb); reflexivity].
Defined.

End RetrievalFacts.

(** ** The conversational turn *)

Module BasicFacts.

Import Basic.

(** C3, as amended.  When the response to the request begins with a text
    block, [basic_agent] returns that text and the history it started from
    extended by one user record and then one assistant record: the returned
    list is the history object itself, it is two records longer, and the
    prior records are its prefix. *)
Theorem basic_agent_appends_turn (c : client) (user_message : string)
    (conversation_history : option (list message)) (text : string)
    (others : list block) :
  content (upcoming c 0) = TextBlock text :: others ->
  let h := prior_history conversation_history in
  let r := basic_agent c user_message conversation_history in
  result r
    = Returned (text,
                (h ++ [user_record user_message; assistant_record text])%list)
  /\ history_object r
     = (h ++ [user_record user_message; assistant_record text])%list
  /\ List.length (history_object r) = List.length h + 2
  /\ firstn (List.length h) (history_object r) = h
  /\ requests_between c (client_after r) = 1.
Proof.
  intros H h r. subst h r.
  unfold basic_agent, messages_create, content0_text, upcoming in *.
  rewrite Nat.add_0_r in H. simpl. rewrite H. simpl.
  fold (prior_history conversation_history).
  set (h := prior_history conversation_history).
  unfold user_record, assistant_record.
  rewrite <- !app_assoc. simpl.
  repeat split.
  - rewrite length_app. simpl. lia.
  - rewrite firstn_app, Nat.sub_diag, firstn_all. simpl. apply app_nil_r.
  - unfold requests_between. simpl. rewrite length_app. simpl. lia.
Qed.

Lemma basic_agent_appends_turn_witness :
  content (upcoming greeting_reply 0) = TextBlock "Hi there" :: []
  /\ result (basic_agent greeting_reply "Hello" None)
     = Returned ("Hi there",
                 [user_record "Hello"; assistant_record "Hi there"]).
Proof.
  split; [reflexivity|].
  apply (basic_agent_appends_turn greeting_reply "Hello" None "Hi there" []).
  reflexivity.
Defined.

(** C3, as stated, fails: when the response has no content block the call
    raises [IndexError], no history is returned, and the history object has
    grown by the user record only. *)
Lemma basic_agent_empty_response :
  result (basic_agent empty_reply "Hello" None) = Raised IndexError
  /\ history_object (basic_agent empty_reply "Hello" None)
     = [user_record "Hello"].
Proof. split; reflexivity. Qed.

(** The call returns exactly when the response begins with a text block. *)
Lemma basic_agent_returns_iff (c : client) (user_message : string)
    (conversation_history : option (list message)) :
  (exists v,
      result (basic_agent c user_message conversation_history) = Returned v)
  <-> (exists text others, content (upcoming c 0) = TextBlock text :: others).
Proof.
  unfold basic_agent, messages_create, content0_text, upcoming.
  rewrite Nat.add_0_r. simpl.
  destruct (content (script c (List.length (issued c)))) as [|[t| |] bs];
    simpl; split.
  all: try (intros [v H]; discriminate H).
  all: try (intros (t' & o & H); discriminate H).
  - intros _. now exists t, bs.
  - intros _. eexists. reflexivity.
Qed.

End BasicFacts.

(** ** The bounded autonomous loop *)

Module AutonomousFacts.

Import Autonomous.

#[local] Arguments messages_create : simpl never.

Lemma upcoming_after_request (c : client) (req : request) (i : nat) :
  upcoming (snd (messages_create c req)) i = upcoming c (S i).
Proof.
  unfold upcoming, messages_create. simpl. rewrite length_app. simpl.
  f_equal. lia.
Qed.

Lemma issued_after_request (c : client) (req : request) :
  List.length (issued (snd (messages_create c req)))
  = S (List.length (issued c)).
Proof. unfold messages_create. simpl. rewrite length_app. simpl. lia. Qed.

(** One iteration, unfolded: the request goes out, then the stop reason
    decides. *)
Lemma iterate_step (k : nat) (self : AutonomousAgent) :
  let req := {| req_model := model_id; req_max_tokens := 2048;
                req_tools := agent_tools self;
                req_messages := conversation_history self |} in
  let response := upcoming (agent_client self) 0 in
  let c := snd (messages_create (agent_client self) req) in
  let self1 := {| agent_client := c;
                  conversation_history := conversation_history self;
                  agent_tools := agent_tools self |} in
  iterate (S k) self =
  if String.eqb (stop_reason response) "end_turn" then
    (first_text (content response), self1)
  else if String.eqb (stop_reason response) "tool_use" then
    iterate k
      (append_message
         (append_message self1
            {| msg_role := assistant;
               msg_content := Blocks (content response) |})
         {| msg_role := user;
            msg_content :=
              ToolResults (mock_tool_results (content response)) |})
  else iterate k self1.
Proof.
  unfold upcoming. rewrite Nat.add_0_r. reflexivity.
Qed.

(** The loop never issues more requests than it has iterations left. *)
Lemma iterate_requests_bound (k : nat) : forall self,
  List.length (issued (agent_client self))
    <= List.length (issued (agent_client (snd (iterate k self))))
    <= List.length (issued (agent_client self)) + k.
Proof.
  induction k as [|k IH]; intros self.
  - simpl. lia.
  - rewrite iterate_step.
    destruct (String.eqb _ "end_turn").
    + cbn [snd agent_client]. rewrite issued_after_request. lia.
    + destruct (String.eqb _ "tool_use").
      * match goal with
        | |- context [iterate k ?s] => specialize (IH s)
        end.
        cbn [agent_client append_message] in IH.
        rewrite issued_after_request in IH. lia.
      * match goal with
        | |- context [iterate k ?s] => specialize (IH s)
        end.
        cbn [agent_client append_message] in IH.
        rewrite issued_after_request in IH. lia.
Qed.

(** Without an end of turn the loop uses up its iterations, one request
    each, and gives the sentinel. *)
Lemma iterate_exhausted (k : nat) : forall self,
  (forall i, i < k ->
     stop_reason (upcoming (agent_client self) i) <> "end_turn") ->
  fst (iterate k self) = Some sentinel
  /\ List.length (issued (agent_client (snd (iterate k self))))
     = List.length (issued (agent_client self)) + k.
Proof.
  induction k as [|k IH]; intros self H.
  - simpl. split; [reflexivity | lia].
  - rewrite iterate_step.
    destruct (String.eqb_spec
                (stop_reason (upcoming (agent_client self) 0)) "end_turn")
      as [E | _].
    + exfalso. apply (H 0); [lia | exact E].
    + destruct (String.eqb _ "tool_use").
      all: match goal with
           | |- context [iterate _ ?s] => specialize (IH s)
           end.
      all: cbn [agent_client append_message] in IH.
      all: rewrite issued_after_request in IH.
      all: destruct IH as [IH1 IH2];
        [ intros i Hi; rewrite upcoming_after_request; apply H; lia
        | split; [exact IH1 | rewrite IH2; lia] ].
Qed.

(** The first end of turn within the bound ends the loop with the text
    found in that response. *)
Lemma iterate_end_turn (i : nat) : forall k self,
  i < k ->
  (forall j, j < i ->
     stop_reason (upcoming (agent_client self) j) <> "end_turn") ->
  stop_reason (upcoming (agent_client self) i) = "end_turn" ->
  fst (iterate k self) = first_text (content (upcoming (agent_client self) i))
  /\ List.length (issued (agent_client (snd (iterate k self))))
     = List.length (issued (agent_client self)) + S i.
Proof.
  induction i as [|i IH]; intros k self Hk Hbefore Hend.
  - destruct k as [|k]; [lia|]. rewrite iterate_step, Hend. simpl.
    rewrite length_app. simpl. split; [reflexivity | lia].
  - destruct k as [|k]; [lia|]. rewrite iterate_step.
    destruct (String.eqb_spec
                (stop_reason (upcoming (agent_client self) 0)) "end_turn")
      as [E | _].
    + exfalso. apply (Hbefore 0); [lia | exact E].
    + destruct (String.eqb _ "tool_use").
      all: match goal with
           | |- context [iterate ?n ?s] => specialize (IH n s)
           end.
      all: cbn [agent_client append_message] in IH.
      all: rewrite issued_after_request, upcoming_after_request in IH.
      all: destruct IH as [IH1 IH2];
        [ lia
        | intros j Hj; rewrite upcoming_after_request; apply Hbefore; lia
        | exact Hend
        | split; [exact IH1 | rewrite IH2; lia] ].
Qed.

Lemma first_text_spec (blocks : list block) :
  first_text_bearing blocks (first_text blocks).
Proof.
  unfold first_text_bearing.
  induction blocks as [|b blocks IH].
  - right. split; reflexivity.
  - destruct b as [t | id name input | th]; simpl.
    + left. exists [], t, blocks. repeat split.
    + destruct IH as [(before & t & after & E & Hb & Hv) | [Hn Hv]].
      * left. exists (ToolUseBlock id name input :: before), t, after.
        rewrite E at 1. simpl. rewrite Hb. repeat split. exact Hv.
      * right. rewrite Hn. split; [reflexivity | exact Hv].
    + destruct IH as [(before & t & after & E & Hb & Hv) | [Hn Hv]].
      * left. exists (ThinkingBlock th :: before), t, after.
        rewrite E at 1. simpl. rewrite Hb. repeat split. exact Hv.
      * right. rewrite Hn. split; [reflexivity | exact Hv].
Qed.

(** C2.  With a maximum iteration count [n], [execute_task] issues at most
    [n] completion requests, and when none of the responses to the first [n]
    requests has stop reason end_turn it returns the sentinel string. *)
Theorem execute_task_bounded (self : AutonomousAgent) (task : string)
    (max_iterations : Z) :
  (0 <= max_iterations)%Z ->
  let run := execute_task self task max_iterations in
  (Z.of_nat (requests_issued self (snd run)) <= max_iterations)%Z
  /\ ((forall i, (Z.of_nat i < max_iterations)%Z ->
         stop_reason (upcoming (agent_client self) i) <> "end_turn") ->
      fst run = Some "Max iterations reached").
Proof.
  intros Hn run. subst run.
  unfold execute_task, requests_issued, requests_between.
  set (start := {| agent_client := agent_client self;
                   conversation_history := _;
                   agent_tools := agent_tools self |}).
  split.
  - pose proof (iterate_requests_bound (Z.to_nat max_iterations) start) as H.
    cbn [agent_client start] in H. subst start. cbn [agent_client] in *. lia.
  - intros H.
    apply (iterate_exhausted (Z.to_nat max_iterations) start).
    intros i Hi. apply H. lia.
Qed.

Lemma execute_task_bounded_witness :
  (0 <= 3)%Z
  /\ (Z.of_nat
        (requests_issued (__init__ (fresh_client always_searching))
           (snd (execute_task (__init__ (fresh_client always_searching))
                   "Research recent AI developments and summarize" 3)))
      <= 3)%Z.
Proof.
  split; [lia|].
  apply (execute_task_bounded (__init__ (fresh_client always_searching))
           "Research recent AI developments and summarize" 3).
  lia.
Defined.

(** A count that is not positive gives no iteration at all. *)
Lemma execute_task_no_iteration (self : AutonomousAgent) (task : string)
    (max_iterations : Z) :
  (max_iterations <= 0)%Z ->
  fst (execute_task self task max_iterations) = Some sentinel
  /\ agent_client (snd (execute_task self task max_iterations))
     = agent_client self.
Proof.
  intros H. unfold execute_task.
  replace (Z.to_nat max_iterations) with 0 by lia. split; reflexivity.
Qed.

(** C7.  When a response with stop reason end_turn is reached, that is, it
    answers one of the first [max_iterations] requests and no earlier
    response had that stop reason, [execute_task] returns the text of its
    first content block that carries a text field, and [None] when none of
    its content blocks carries one. *)
Theorem execute_task_end_turn (self : AutonomousAgent) (task : string)
    (max_iterations : Z) (i : nat) :
  (Z.of_nat i < max_iterations)%Z ->
  (forall j, j < i ->
     stop_reason (upcoming (agent_client self) j) <> "end_turn") ->
  stop_reason (upcoming (agent_client self) i) = "end_turn" ->
  first_text_bearing (content (upcoming (agent_client self) i))
    (fst (execute_task self task max_iterations)).
Proof.
  intros Hi Hbefore Hend. unfold execute_task.
  set (start := {| agent_client := agent_client self;
                   conversation_history := _;
                   agent_tools := agent_tools self |}).
  destruct (iterate_end_turn i (Z.to_nat max_iterations) start) as [E _];
    [lia | exact Hbefore | exact Hend |].
  rewrite E. apply first_text_spec.
Qed.

Lemma execute_task_end_turn_witness :
  (Z.of_nat 2 < 10)%Z
  /\ first_text_bearing (content (search_then_answer 2))
       (fst (execute_task (__init__ (fresh_client search_then_answer))
               "Research recent AI developments and summarize" 10)).
Proof.
  split; [lia|].
  apply (execute_task_end_turn (__init__ (fresh_client search_then_answer))
           "Research recent AI developments and summarize" 10 2).
  - lia.
  - intros j Hj E. destruct j as [|[|j]];
      [discriminate E | discriminate E | lia].
  - reflexivity.
Defined.

Example end_turn_returns_first_text :
  fst (execute_task (__init__ (fresh_client search_then_answer))
         "Research recent AI developments and summarize"
         default_max_iterations)
  = Some "Summary".
Proof. reflexivity. Qed.

Example end_turn_without_text_returns_none :
  fst (execute_task
         (__init__ (fresh_client
                  (fun _ => {| stop_reason := "end_turn";
                               content := [ThinkingBlock "nothing to say"] |})))
         "Research recent AI developments and summarize" 10)
  = None.
Proof. reflexivity. Qed.

(** C10.  With a maximum iteration count of zero, [execute_task] issues no
    completion request and returns the sentinel string. *)
Theorem execute_task_zero_iterations (self : AutonomousAgent) (task : string) :
  fst (execute_task self task 0) = Some "Max iterations reached"
  /\ requests_issued self (snd (execute_task self task 0)) = 0
  /\ issued (agent_client (snd (execute_task self task 0)))
     = issued (agent_client self).
Proof.
  unfold execute_task, requests_issued, requests_between. simpl.
  repeat split. lia.
Qed.

End AutonomousFacts.

(** ** The tool-dispatch loop *)

Module ToolAgentFacts.

Import ToolAgent.

Section WithEval.

Variable str_eval_other : string -> outcome string.

Lemma calculator_never_raises (expression : json) (e : exn) :
  calculator str_eval_other expression <> Raised e.
Proof.
  unfold calculator.
  destruct (str_eval str_eval_other expression); discriminate.
Qed.

(** A tool call returns exactly when the block names one of the two tools
    with the one argument it takes (and the calculator comes back). *)
Lemma call_tool_returns_iff (name : string) (input : tool_input)
    (result : string) :
  call_tool str_eval_other name input = Returned result
  <-> (name = "get_weather"
       /\ exists location,
            input = [("location", location)]
            /\ result = get_weather location)
      \/ (name = "calculator"
          /\ exists expression,
               input = [("expression", expression)]
               /\ calculator str_eval_other expression = Returned result).
Proof.
  unfold call_tool, bind_kwargs. split.
  - destruct (String.eqb_spec name "get_weather") as [-> | _].
    + destruct input as [|[key value] [|? ?]]; simpl; try discriminate.
      destruct (String.eqb_spec key "location") as [-> | _]; simpl;
        [|discriminate].
      intros H. injection H as <-. left. split; [reflexivity|].
      now exists value.
    + destruct (String.eqb_spec name "calculator") as [-> | _];
        [|discriminate].
      destruct input as [|[key value] [|? ?]]; simpl; try discriminate.
      destruct (String.eqb_spec key "expression") as [-> | _]; simpl;
        [|discriminate].
      intros H. right. split; [reflexivity|]. now exists value.
  - intros [[-> (v & -> & ->)] | [-> (v & -> & H)]]; simpl; auto.
Qed.

(** Each tool result answers one tool-use block, in order, under its
    identifier. *)
Lemma run_tools_ids (blocks : list block) : forall tool_results,
  run_tools str_eval_other blocks = Returned tool_results ->
  map tool_use_id tool_results = tool_use_ids blocks.
Proof.
  induction blocks as [|b blocks IH]; intros tool_results H.
  - injection H as <-. reflexivity.
  - destruct b as [t | id name input | th]; simpl in *; auto.
    destruct (call_tool str_eval_other name input); try discriminate H.
    simpl in H. destruct (run_tools str_eval_other blocks); try discriminate H.
    simpl in H. injection H as <-. simpl. f_equal. now apply IH.
Qed.

Lemma results_of_ids (blocks : list block) (tool_results : list tool_result) :
  run_tools str_eval_other blocks = Returned tool_results ->
  results_of str_eval_other blocks = tool_results
  /\ map tool_use_id (results_of str_eval_other blocks) = tool_use_ids blocks.
Proof.
  intros H. unfold results_of. rewrite H. split; [reflexivity|].
  now apply run_tools_ids.
Qed.

(** An iteration whose response asks for tools that all return. *)
Lemma loop_body_tool_use (st : loop_state) (tool_results : list tool_result) :
  stop_reason (upcoming (loop_client st) 0) = "tool_use" ->
  run_tools str_eval_other (content (upcoming (loop_client st) 0))
  = Returned tool_results ->
  loop_body str_eval_other st
  = Continue
      {| messages :=
           (messages st
              ++ turn_records str_eval_other
                   (upcoming (loop_client st) 0))%list;
         loop_client := after_request st |}.
Proof.
  unfold upcoming, loop_body, turn_records, results_of, after_request.
  rewrite Nat.add_0_r. simpl. intros -> ->. reflexivity.
Qed.

(** An iteration whose response has another stop reason. *)
Lemma loop_body_final (st : loop_state) :
  stop_reason (upcoming (loop_client st) 0) <> "tool_use" ->
  loop_body str_eval_other st
  = Stop (content0_text (upcoming (loop_client st) 0))
      {| messages := messages st; loop_client := after_request st |}.
Proof.
  unfold upcoming, loop_body, after_request.
  rewrite Nat.add_0_r. simpl. intros H.
  apply String.eqb_neq in H. rewrite H. reflexivity.
Qed.

Lemma upcoming_after (st : loop_state) (i : nat) :
  upcoming (after_request st) i = upcoming (loop_client st) (S i).
Proof.
  unfold after_request, upcoming, messages_create. simpl.
  rewrite length_app. simpl. f_equal. lia.
Qed.

Lemma issued_after (st : loop_state) :
  List.length (issued (after_request st))
  = S (List.length (issued (loop_client st))).
Proof.
  unfold after_request, messages_create. simpl. rewrite length_app. simpl. lia.
Qed.

Lemma flat_map_seq_shift (A : Type) (f : nat -> list A) (k : nat) :
  flat_map f (seq 1 k) = flat_map (fun j => f (S j)) (seq 0 k).
Proof.
  rewrite <- seq_shift, flat_map_concat_map, map_map, <- flat_map_concat_map.
  reflexivity.
Qed.

(** [k] tool-use responses whose tools return, then a response with another
    stop reason: the loop issues [k + 1] requests, adds the two records of
    each tool-use response, and stops on the last response. *)
Lemma loop_dispatch (k : nat) : forall (st : loop_state) (fuel : nat),
  (forall j, j < k ->
     stop_reason (upcoming (loop_client st) j) = "tool_use"
     /\ exists tool_results,
          run_tools str_eval_other (content (upcoming (loop_client st) j))
          = Returned tool_results) ->
  stop_reason (upcoming (loop_client st) k) <> "tool_use" ->
  k < fuel ->
  fst (loop str_eval_other fuel st)
  = Some (content0_text (upcoming (loop_client st) k))
  /\ List.length (issued (loop_client (snd (loop str_eval_other fuel st))))
     = List.length (issued (loop_client st)) + S k
  /\ messages (snd (loop str_eval_other fuel st))
     = (messages st
          ++ flat_map (fun j => turn_records str_eval_other
                                  (upcoming (loop_client st) j))
               (seq 0 k))%list.
Proof.
  induction k as [|k IH]; intros st fuel Htools Hlast Hfuel.
  - destruct fuel as [|fuel]; [lia|]. cbn [loop].
    rewrite loop_body_final by exact Hlast.
    cbn [fst snd loop_client messages seq flat_map].
    rewrite issued_after, app_nil_r. repeat split. lia.
  - destruct fuel as [|fuel]; [lia|]. cbn [loop].
    destruct (Htools 0 ltac:(lia)) as [Hstop [res Hres]].
    rewrite (loop_body_tool_use st res Hstop Hres).
    match goal with
    | |- context [loop str_eval_other fuel ?s] => specialize (IH s fuel)
    end.
    cbn [loop_client messages] in IH.
    destruct IH as (IH1 & IH2 & IH3).
    + intros j Hj. rewrite upcoming_after. apply Htools. lia.
    + rewrite upcoming_after. exact Hlast.
    + lia.
    + rewrite upcoming_after in IH1. rewrite issued_after in IH2.
      split; [exact IH1|]. split; [rewrite IH2; lia|].
      rewrite IH3. rewrite <- app_assoc. f_equal.
      cbn [seq flat_map]. f_equal.
      rewrite flat_map_seq_shift.
      apply flat_map_ext. intros j. now rewrite upcoming_after.
Qed.

(** More fuel does not change the outcome of a loop that has stopped. *)
Lemma loop_fuel_mono (fuel : nat) : forall st final st' extra,
  loop str_eval_other fuel st = (Some final, st') ->
  loop str_eval_other (fuel + extra) st = (Some final, st').
Proof.
  induction fuel as [|fuel IH]; intros st final st' extra H.
  - discriminate H.
  - cbn [loop Nat.add] in *.
    destruct (loop_body str_eval_other st) as [next | f s].
    + now apply IH.
    + exact H.
Qed.

(** While every response asks for the weather the loop goes on. *)
Lemma loop_weather_forever (fuel : nat) : forall st,
  script (loop_client st) = weather_forever ->
  fst (loop str_eval_other fuel st) = None
  /\ List.length (issued (loop_client (snd (loop str_eval_other fuel st))))
     = List.length (issued (loop_client st)) + fuel.
Proof.
  induction fuel as [|fuel IH]; intros st Hs.
  - simpl. split; [reflexivity | lia].
  - cbn [loop].
    rewrite (loop_body_tool_use st
               [{| tool_use_id := "toolu_01";
                   result_content := get_weather (JStr "Paris") |}]).
    + match goal with
      | |- context [loop str_eval_other fuel ?s] => specialize (IH s)
      end.
      cbn [loop_client] in IH. rewrite issued_after in IH.
      destruct IH as [IH1 IH2].
      * unfold after_request, messages_create. simpl. exact Hs.
      * split; [exact IH1 | rewrite IH2; lia].
    + unfold upcoming. rewrite Hs. reflexivity.
    + unfold upcoming. rewrite Hs. reflexivity.
Qed.

End WithEval.

(** C4, as amended.  Let the first [k] responses have stop reason tool_use
    with every tool-use block naming one of the two tools of
    [tool_functions] with the argument it takes, so that each tool call
    returns, and let the next response have another stop reason and begin
    with a text block.  Then the loop issues a request for each of these
    [k + 1] responses, adds for each tool-use response the assistant record
    and one user record holding exactly one tool result per tool-use block,
    in order and under the block's identifier, and returns the text of the
    first content block of the last response. *)
Theorem tool_loop_dispatches (str_eval_other : string -> outcome string)
    (c : client) (k : nat) (text : string) (others : list block) (fuel : nat) :
  (forall j, j < k ->
     stop_reason (upcoming c j) = "tool_use"
     /\ exists tool_results,
          run_tools str_eval_other (content (upcoming c j))
          = Returned tool_results) ->
  stop_reason (upcoming c k) <> "tool_use" ->
  content (upcoming c k) = TextBlock text :: others ->
  k < fuel ->
  let run := tool_using_agent str_eval_other fuel c in
  fst run = Some (Returned text)
  /\ requests_between c (loop_client (snd run)) = S k
  /\ messages (snd run)
     = (initial_messages
          ++ flat_map (fun j => turn_records str_eval_other (upcoming c j))
               (seq 0 k))%list
  /\ (forall j, j < k ->
        map tool_use_id (results_of str_eval_other (content (upcoming c j)))
        = tool_use_ids (content (upcoming c j))).
Proof.
  intros Htools Hlast Hfirst Hfuel run. subst run. unfold tool_using_agent.
  set (st := {| messages := initial_messages; loop_client := c |}).
  destruct (loop_dispatch str_eval_other k st fuel Htools Hlast Hfuel)
    as (H1 & H2 & H3).
  split.
  - rewrite H1. cbn [st loop_client]. unfold content0_text.
    now rewrite Hfirst.
  - split; [|split].
    + unfold requests_between. rewrite H2. cbn [st loop_client]. lia.
    + exact H3.
    + intros j Hj. destruct (Htools j Hj) as [_ [res Hres]].
      now apply (results_of_ids str_eval_other _ res).
Qed.

Lemma tool_loop_dispatches_witness :
  1 < 2
  /\ fst (tool_using_agent rejecting 2 (fresh_client both_tools_then_answer))
     = Some (Returned "Paris is sunny and 15 * 23 is 345.").
Proof.
  split; [lia|].
  apply (tool_loop_dispatches rejecting (fresh_client both_tools_then_answer)
           1 "Paris is sunny and 15 * 23 is 345." [] 2).
  - intros j Hj. assert (j = 0) as -> by lia.
    split; [reflexivity | eexists; reflexivity].
  - discriminate.
  - reflexivity.
  - lia.
Defined.

(** The run of the witness, in full: both tools are answered in one user
    record. *)
Example tool_loop_both_tools :
  messages (snd (tool_using_agent rejecting 2
                   (fresh_client both_tools_then_answer)))
  = (initial_messages
       ++ [ {| msg_role := assistant;
               msg_content := Blocks (content (both_tools_then_answer 0)) |};
            {| msg_role := user;
               msg_content :=
                 ToolResults
                   [ {| tool_use_id := "toolu_01";
                        result_content := get_weather (JStr "Paris") |};
                     {| tool_use_id := "toolu_02";
                        result_content := "345" |} ] |} ])%list.
Proof. reflexivity. Qed.

(** C4, as stated, fails: a response with stop reason tool_use whose one
    tool-use block names a tool outside [tool_functions] ends the loop with
    [KeyError]; no tool result is added and no further request is issued. *)
Lemma tool_loop_unknown_tool :
  stop_reason (unknown_tool 0) = "tool_use"
  /\ tool_use_ids (content (unknown_tool 0)) = ["toolu_01"]
  /\ forall fuel,
       fst (tool_using_agent rejecting (S fuel) (fresh_client unknown_tool))
       = Some (Raised KeyError)
       /\ messages (snd (tool_using_agent rejecting (S fuel)
                           (fresh_client unknown_tool)))
          = initial_messages
       /\ List.length
            (issued (loop_client
                       (snd (tool_using_agent rejecting (S fuel)
                               (fresh_client unknown_tool)))))
          = 1.
Proof. repeat split. Qed.

(** Arguments other than the one the tool takes are a [TypeError]. *)
Example call_tool_extra_argument :
  call_tool rejecting "get_weather"
    [("location", JStr "Paris"); ("unit", JStr "celsius")]
  = Raised TypeError.
Proof. reflexivity. Qed.

(** C5.  The calculator returns the text of the value of an arithmetic
    expression, as on [15 * 23] where it returns [345]; whenever
    [str(eval(expression))] raises it returns the fixed string; and it never
    raises. *)
Theorem calculator_spec (str_eval_other : string -> outcome string)
    (expression : json) :
  calculator str_eval_other (JStr "15 * 23") = Returned "345"
  /\ (forall source a z,
        parse_arith source = Some a -> eval_arith a = Returned z ->
        calculator str_eval_other (JStr source) = Returned (str_int z))
  /\ (forall s, str_eval str_eval_other expression = Returned s ->
                calculator str_eval_other expression = Returned s)
  /\ (forall e, str_eval str_eval_other expression = Raised e ->
                calculator str_eval_other expression
                = Returned "Invalid expression")
  /\ (forall e, calculator str_eval_other expression <> Raised e).
Proof.
  split; [reflexivity|]. split; [|split; [|split]].
  - intros source a z Hp He. unfold calculator, str_eval.
    rewrite Hp, He. reflexivity.
  - intros s H. unfold calculator. now rewrite H.
  - intros e H. unfold calculator. now rewrite H.
  - intros e. apply calculator_never_raises.
Qed.

Example calculator_division_by_zero
    (str_eval_other : string -> outcome string) :
  calculator str_eval_other (JStr "7 // 0") = Returned "Invalid expression".
Proof. reflexivity. Qed.

Example calculator_not_a_string (str_eval_other : string -> outcome string) :
  calculator str_eval_other (JOther "345") = Returned "Invalid expression".
Proof. reflexivity. Qed.

Example calculator_rejected_source :
  calculator rejecting (JStr "15 * ") = Returned "Invalid expression".
Proof. reflexivity. Qed.

(** C6.  The loop has no bound of its own: there is an infinite sequence of
    responses, all with stop reason tool_use, on which the loop is still
    running after any number of iterations, having issued one request in
    each. *)
Theorem tool_loop_unbounded :
  exists responses : nat -> response,
    (forall i, stop_reason (responses i) = "tool_use")
    /\ forall (str_eval_other : string -> outcome string) (fuel : nat),
         fst (tool_using_agent str_eval_other fuel (fresh_client responses))
         = None
         /\ List.length
              (issued (loop_client
                         (snd (tool_using_agent str_eval_other fuel
                                 (fresh_client responses)))))
            = fuel.
Proof.
  exists weather_forever. split; [reflexivity|].
  intros str_eval_other fuel. unfold tool_using_agent.
  apply (loop_weather_forever str_eval_other fuel
           {| messages := initial_messages;
              loop_client := fresh_client weather_forever |}).
  reflexivity.
Qed.

End ToolAgentFacts.

(** ** More on retrieval and on [rag_agent] *)

Module RetrievalMore.

Import Retrieval PyStrFacts RetrievalFacts.

Lemma lower_char_idempotent (c : ascii) :
  lower_char (lower_char c) = lower_char c.
Proof. destruct c as [[] [] [] [] [] [] [] []]; reflexivity. Qed.

Lemma isspace_lower_char (c : ascii) : isspace (lower_char c) = isspace c.
Proof. destruct c as [[] [] [] [] [] [] [] []]; reflexivity. Qed.

Lemma lower_idempotent (s : string) : lower (lower s) = lower s.
Proof.
  induction s as [|c s IH]; simpl; [reflexivity|].
  now rewrite lower_char_idempotent, IH.
Qed.

Lemma lower_app (a b : string) : lower (a ++ b) = lower a ++ lower b.
Proof. induction a as [|c a IH]; simpl; [reflexivity | now rewrite IH]. Qed.

Lemma is_empty_lower (s : string) : is_empty (lower s) = is_empty s.
Proof. destruct s; reflexivity. Qed.

Lemma split_from_lower (s : string) : forall cur,
  split_from (lower cur) (lower s) = map lower (split_from cur s).
Proof.
  induction s as [|c s IH]; intros cur; simpl.
  - rewrite is_empty_lower. destruct (is_empty cur); reflexivity.
  - rewrite isspace_lower_char. destruct (isspace c).
    + rewrite map_app, <- (IH EmptyString), is_empty_lower.
      destruct (is_empty cur); reflexivity.
    + rewrite <- IH, lower_app. reflexivity.
Qed.

Lemma split_lower (s : string) : split (lower s) = map lower (split s).
Proof. apply (split_from_lower s EmptyString). Qed.

Lemma existsb_map (A B : Type) (f : A -> B) (p : B -> bool) (l : list A) :
  existsb p (map f l) = existsb (fun x => p (f x)) l.
Proof. induction l as [|x l IH]; simpl; [reflexivity | now rewrite IH]. Qed.

Lemma existsb_pointwise (A : Type) (p q : A -> bool) (l : list A) :
  (forall x, p x = q x) -> existsb p l = existsb q l.
Proof.
  intros H. induction l as [|x l IH]; simpl; [reflexivity|].
  now rewrite H, IH.
Qed.

Lemma relevant_lower_query (query doc : string) :
  relevant (lower query) doc = relevant query doc.
Proof.
  unfold relevant. rewrite split_lower, existsb_map.
  apply existsb_pointwise. intros k. now rewrite lower_idempotent.
Qed.

Lemma relevant_lower_doc (query doc : string) :
  relevant query (lower doc) = relevant query doc.
Proof. unfold relevant. now rewrite lower_idempotent. Qed.

(** X1.  Retrieval does not depend on letter case: putting the query in
    lower case selects the same documents, and a document is relevant
    exactly when its lower-case form is. *)
Theorem retrieval_ignores_case (query : string) (kb : list string) :
  selected_docs (lower query) kb = selected_docs query kb
  /\ (forall doc, relevant query (lower doc) = relevant query doc)
  /\ retrieve_context (lower query) kb = retrieve_context query kb.
Proof.
  assert (E : selected_docs (lower query) kb = selected_docs query kb).
  { unfold selected_docs, relevant_docs. f_equal.
    apply filter_ext. intros doc. apply relevant_lower_query. }
  split; [exact E|]. split.
  - intros doc. apply relevant_lower_doc.
  - unfold retrieve_context. now rewrite E.
Qed.

Lemma split_nonempty (q t : string) : In t (split q) -> t <> EmptyString.
Proof. intros H. apply split_spec in H. apply H. Qed.

(** X2.  The empty document is never relevant, whatever the query, since no
    token is empty: it is never among the selected documents. *)
Theorem empty_document_never_selected (query : string) (kb : list string) :
  relevant query EmptyString = false
  /\ ~ In EmptyString (selected_docs query kb).
Proof.
  assert (E : relevant query EmptyString = false).
  { unfold relevant. apply not_true_is_false. intros H.
    apply existsb_exists in H as (t & Hin & Hc).
    apply split_nonempty in Hin. destruct t; [congruence | discriminate Hc]. }
  split; [exact E|].
  intros H. apply firstn_In in H. apply filter_In in H as [_ H]. congruence.
Qed.

(** X3.  Documents added at the end of the knowledge base never displace a
    selected document: the old selection is a prefix of the new one, and once
    three documents are selected the selection no longer changes. *)
Theorem selection_stable_under_append (query : string) (kb more : list string) :
  (exists added,
      selected_docs query (kb ++ more)%list
      = (selected_docs query kb ++ added)%list)
  /\ (List.length (selected_docs query kb) = 3 ->
      selected_docs query (kb ++ more)%list = selected_docs query kb).
Proof.
  unfold selected_docs, relevant_docs. rewrite filter_app, firstn_app.
  split.
  - eexists. reflexivity.
  - intros H. rewrite length_firstn in H.
    replace (3 - List.length (filter (relevant query) kb)) with 0 by lia.
    simpl. apply app_nil_r.
Qed.

Lemma split_from_app (a b : string) (c : ascii) : forall cur,
  isspace c = true ->
  split_from cur (a ++ String c b) = (split_from cur a ++ split b)%list.
Proof.
  induction a as [|x a IH]; intros cur Hc; simpl.
  - rewrite Hc. reflexivity.
  - destruct (isspace x).
    + rewrite IH by exact Hc. now rewrite app_assoc.
    + now apply IH.
Qed.

(** X4.  A query made of two parts separated by a blank finds what either
    part finds: a document is relevant to it exactly when it is relevant to
    one of the parts. *)
Theorem relevant_to_joined_query (a b doc : string) :
  relevant (a ++ " " ++ b) doc = relevant a doc || relevant b doc.
Proof.
  unfold relevant, split. simpl append.
  rewrite split_from_app by reflexivity.
  apply existsb_app.
Qed.

Lemma join_contains (sep d : string) (items : list string) :
  In d items -> is_substring d (join sep items).
Proof.
  unfold is_substring. induction items as [|x rest IH]; intros H.
  - destruct H.
  - destruct H as [-> | H].
    + destruct rest as [|y rest'].
      * exists EmptyString, EmptyString. simpl. now rewrite append_nil_r.
      * exists EmptyString, (sep ++ join sep (y :: rest')). reflexivity.
    + destruct rest as [|y rest']; [destruct H|].
      destruct (IH H) as (pre & post & E).
      exists (x ++ sep ++ pre), post.
      change (join sep (x :: y :: rest'))
        with (x ++ sep ++ join sep (y :: rest')).
      rewrite E, !append_assoc. reflexivity.
Qed.

(** X5.  Every selected document appears verbatim in the context that
    [retrieve_context] returns. *)
Theorem context_holds_selected_documents (query doc : string)
    (kb : list string) :
  In doc (selected_docs query kb) ->
  is_substring doc (retrieve_context query kb).
Proof. intros H. unfold retrieve_context. now apply join_contains. Qed.

Lemma context_holds_selected_documents_witness :
  In doc_founded (selected_docs "When was the company founded?" kb)
  /\ is_substring doc_founded
       (retrieve_context "When was the company founded?" kb).
Proof.
  split; [vm_compute; auto|].
  apply (context_holds_selected_documents
           "When was the company founded?" doc_founded kb).
  vm_compute. auto.
Defined.

(** X6.  [rag_agent] issues exactly one completion request, without tools
    and with a single user message whose text holds both the retrieved
    context and the query; what it gives back is the text of the first
    content block of the response, or the fault of reading it. *)
Theorem rag_agent_single_request (c : client) (query : string)
    (kb : list string) :
  exists text,
    issued (snd (Rag.rag_agent c query kb))
    = (issued c
         ++ [ {| req_model := model_id; req_max_tokens := 1024;
                 req_tools := [];
                 req_messages :=
                   [ {| msg_role := user;
                        msg_content := Text text |} ] |} ])%list
    /\ is_substring (retrieve_context query kb) text
    /\ is_substring query text
    /\ fst (Rag.rag_agent c query kb) = content0_text (upcoming c 0).
Proof.
  exists (Rag.prompt (retrieve_context query kb) query).
  unfold Rag.rag_agent, messages_create, upcoming. simpl.
  rewrite Nat.add_0_r. split; [reflexivity|]. split; [|split; [|reflexivity]].
  - unfold is_substring, Rag.prompt.
    exists ("Use the following context to answer the question." ++ nl
              ++ "            " ++ nl ++ "Context:" ++ nl).
    eexists. rewrite !append_assoc. reflexivity.
  - unfold is_substring, Rag.prompt.
    exists ("Use the following context to answer the question." ++ nl
              ++ "            " ++ nl ++ "Context:" ++ nl
              ++ retrieve_context query kb ++ nl ++ nl ++ "Question: ").
    eexists. rewrite !append_assoc. reflexivity.
Qed.

End RetrievalMore.

(** ** Alternation of roles *)

Module ConversationFacts.

Import Conversation.

Lemma alternates_app (a b : list message) : forall first,
  alternates first (a ++ b)%list
  = alternates first a
    && alternates (if Nat.even (List.length a) then first
                   else other_role first) b.
Proof.
  induction a as [|m a IH]; intros first.
  - reflexivity.
  - cbn [alternates app List.length]. rewrite IH, andb_assoc. f_equal.
    rewrite Nat.even_succ, <- Nat.negb_even.
    destruct (Nat.even (List.length a)), first; reflexivity.
Qed.

End ConversationFacts.

(** ** More on the conversational turn *)

Module BasicMore.

Import Basic Conversation ConversationFacts.

(** The call, unfolded, when the response begins with a text block. *)
Lemma basic_agent_text (c : client) (user_message : string)
    (conversation_history : option (list message)) (text : string)
    (others : list block) :
  content (upcoming c 0) = TextBlock text :: others ->
  let sent :=
    (prior_history conversation_history ++ [user_record user_message])%list in
  basic_agent c user_message conversation_history
  = {| result := Returned (text, (sent ++ [assistant_record text])%list);
       history_object := (sent ++ [assistant_record text])%list;
       client_after :=
         {| script := script c;
            issued := (issued c ++ [turn_request sent])%list |} |}.
Proof.
  unfold basic_agent, messages_create, content0_text, upcoming.
  rewrite Nat.add_0_r. simpl. intros ->. reflexivity.
Qed.

(** X7.  Two calls in a row, the second on the history the first returned:
    the second request carries the whole first turn before the new user
    message, and the final history is the prior one followed by both turns
    in order. *)
Theorem basic_agent_two_turns (c : client)
    (first_message second_message : string)
    (conversation_history : option (list message))
    (text1 text2 : string) (others1 others2 : list block) :
  content (upcoming c 0) = TextBlock text1 :: others1 ->
  content (upcoming c 1) = TextBlock text2 :: others2 ->
  let h := prior_history conversation_history in
  let first := basic_agent c first_message conversation_history in
  let second :=
    basic_agent (client_after first) second_message
      (Some (history_object first)) in
  result second
  = Returned (text2,
              (h ++ [ user_record first_message; assistant_record text1;
                      user_record second_message;
                      assistant_record text2 ])%list)
  /\ issued (client_after second)
     = (issued c
          ++ [ turn_request (h ++ [user_record first_message])%list;
               turn_request
                 (h ++ [ user_record first_message; assistant_record text1;
                         user_record second_message ])%list ])%list.
Proof.
  intros H1 H2 h first second. subst h first second.
  rewrite (basic_agent_text c first_message conversation_history text1
             others1 H1).
  cbn [client_after history_object].
  erewrite basic_agent_text.
  - cbn [result client_after prior_history issued script].
    rewrite <- !app_assoc. simpl. split; reflexivity.
  - unfold upcoming in *. cbn [script issued].
    rewrite length_app. simpl.
    replace (List.length (issued c) + 1 + 0) with (List.length (issued c) + 1)
      by lia.
    exact H2.
Qed.

Lemma basic_agent_two_turns_witness :
  content (upcoming greeting_reply 0) = [TextBlock "Hi there"]
  /\ result
       (basic_agent
          (client_after (basic_agent greeting_reply "Hello" None))
          "And then?"
          (Some (history_object (basic_agent greeting_reply "Hello" None))))
     = Returned ("Hi there",
                 [ user_record "Hello"; assistant_record "Hi there";
                   user_record "And then?"; assistant_record "Hi there" ]).
Proof.
  split; [reflexivity|].
  apply (basic_agent_two_turns greeting_reply "Hello" "And then?" None
           "Hi there" "Hi there" [] []); reflexivity.
Defined.

(** X8.  When the response does not begin with a text block the call raises
    ([IndexError] for a response without content, [AttributeError]
    otherwise) after its one request, and the history list keeps the user
    record that was added before the request. *)
Theorem basic_agent_fault (c : client) (user_message : string)
    (conversation_history : option (list message)) :
  (forall text others, content (upcoming c 0) <> TextBlock text :: others) ->
  let r := basic_agent c user_message conversation_history in
  result r
  = Raised match content (upcoming c 0) with
           | [] => IndexError
           | _ :: _ => AttributeError
           end
  /\ history_object r
     = (prior_history conversation_history ++ [user_record user_message])%list
  /\ requests_between c (client_after r) = 1.
Proof.
  intros H r. subst r.
  unfold basic_agent, messages_create, content0_text, upcoming in *.
  rewrite Nat.add_0_r in *. simpl.
  destruct (content (script c (List.length (issued c)))) as [|[t| |] bs];
    simpl.
  2: { exfalso. now apply (H t bs). }
  all: repeat split.
  all: unfold requests_between; simpl; rewrite length_app; simpl; lia.
Qed.

Lemma basic_agent_fault_witness :
  content (upcoming empty_reply 0) = []
  /\ result
       (basic_agent empty_reply "Hello" (Some [assistant_record "Welcome"]))
     = Raised IndexError
  /\ history_object
       (basic_agent empty_reply "Hello" (Some [assistant_record "Welcome"]))
     = [assistant_record "Welcome"; user_record "Hello"].
Proof.
  split; [reflexivity|].
  pose proof (basic_agent_fault empty_reply "Hello"
                (Some [assistant_record "Welcome"])) as H.
  cbv zeta in H.
  destruct H as (H1 & H2 & _); [intros text others E; discriminate E|].
  split; [exact H1 | exact H2].
Defined.

(** X9.  A successful call keeps the history well formed: when the prior
    history alternates user and assistant records and ends on an assistant
    record (or is empty), so does the history returned, and the request sent
    ends on the new user record. *)
Theorem basic_agent_keeps_alternation (c : client) (user_message : string)
    (conversation_history : option (list message)) (text : string)
    (others : list block) :
  content (upcoming c 0) = TextBlock text :: others ->
  alternates user (prior_history conversation_history) = true ->
  Nat.even (List.length (prior_history conversation_history)) = true ->
  let r := basic_agent c user_message conversation_history in
  alternates user (history_object r) = true
  /\ Nat.even (List.length (history_object r)) = true
  /\ exists sent,
       issued (client_after r) = (issued c ++ [turn_request sent])%list
       /\ alternates user sent = true
       /\ last sent (assistant_record text) = user_record user_message.
Proof.
  intros H Ha He r. subst r.
  rewrite (basic_agent_text c user_message conversation_history text others H).
  cbn [history_object client_after].
  set (h := prior_history conversation_history) in *.
  rewrite <- app_assoc. split; [|split].
  - rewrite alternates_app, Ha, He. reflexivity.
  - rewrite length_app. cbn [List.length app].
    replace (List.length h + 2) with (S (S (List.length h))) by lia.
    now rewrite Nat.even_succ_succ.
  - exists (h ++ [user_record user_message])%list. split; [reflexivity|].
    split.
    + rewrite alternates_app, Ha, He. reflexivity.
    + apply last_last.
Qed.

Lemma basic_agent_keeps_alternation_witness :
  alternates user (prior_history None) = true
  /\ alternates user (history_object (basic_agent greeting_reply "Hello" None))
     = true.
Proof.
  split; [reflexivity|].
  apply (basic_agent_keeps_alternation greeting_reply "Hello" None
           "Hi there" []); reflexivity.
Defined.

End BasicMore.

(** ** More on the tool-dispatch loop *)

Module ToolAgentMore.

Import ToolAgent Conversation ConversationFacts ToolAgentFacts.

Section WithEval.

Variable str_eval_other : string -> outcome string.

Lemma bind_kwargs_outcome (parameter : string) (input : tool_input) :
  (exists value, input = [(parameter, value)]
                 /\ bind_kwargs parameter input = Returned value)
  \/ ((~ exists value, input = [(parameter, value)])
      /\ bind_kwargs parameter input = Raised TypeError).
Proof.
  unfold bind_kwargs.
  destruct input as [|[key value] [|second rest]].
  - right. split; [intros [v H]; discriminate H | reflexivity].
  - destruct (String.eqb_spec key parameter) as [-> | N].
    + left. now exists value.
    + right. split; [|reflexivity].
      intros [v H]. injection H as H _. contradiction.
  - right. split; [intros [v H]; discriminate H | reflexivity].
Qed.

Lemma history_after_0 (c : client) (start : list message) :
  history_after str_eval_other c start 0 = start.
Proof. unfold history_after. simpl. apply app_nil_r. Qed.

Lemma history_after_shift (st : loop_state) (j : nat) :
  history_after str_eval_other (after_request st)
    (messages st
       ++ turn_records str_eval_other (upcoming (loop_client st) 0))%list j
  = history_after str_eval_other (loop_client st) (messages st) (S j).
Proof.
  unfold history_after. rewrite <- app_assoc. f_equal.
  cbn [seq flat_map]. f_equal. rewrite flat_map_seq_shift.
  apply flat_map_ext. intros i. now rewrite upcoming_after.
Qed.

Lemma loop_request_logged (st : loop_state) :
  issued (after_request st)
  = (issued (loop_client st) ++ [tool_request (messages st)])%list.
Proof. reflexivity. Qed.

(** An iteration whose response asks for tools of which one does not
    return: the loop stops there and [messages] is left as it was. *)
Lemma loop_body_tool_fault (st : loop_state) :
  stop_reason (upcoming (loop_client st) 0) = "tool_use" ->
  (forall rs, run_tools str_eval_other (content (upcoming (loop_client st) 0))
              <> Returned rs) ->
  loop_body str_eval_other st
  = Stop match run_tools str_eval_other
                 (content (upcoming (loop_client st) 0)) with
         | Returned _ => NoReturn
         | Raised e => Raised e
         | NoReturn => NoReturn
         end
      {| messages := messages st; loop_client := after_request st |}.
Proof.
  unfold upcoming, loop_body, after_request.
  rewrite Nat.add_0_r. simpl. intros -> H. simpl.
  destruct (run_tools str_eval_other _) as [rs | e |]; try reflexivity.
  exfalso. now apply (H rs).
Qed.

(** Every run of the loop, whatever the responses: [k] tool-use responses
    whose tools returned have been worked off, [messages] holds the records
    of exactly those, and each request carried the history of its moment. *)
Lemma loop_shape (fuel : nat) : forall st,
  exists k,
    k <= fuel
    /\ messages (snd (loop str_eval_other fuel st))
       = history_after str_eval_other (loop_client st) (messages st) k
    /\ (forall j, j < k ->
          stop_reason (upcoming (loop_client st) j) = "tool_use"
          /\ exists rs,
               run_tools str_eval_other
                 (content (upcoming (loop_client st) j)) = Returned rs)
    /\ issued (loop_client (snd (loop str_eval_other fuel st)))
       = (issued (loop_client st)
            ++ map (fun j =>
                      tool_request
                        (history_after str_eval_other (loop_client st)
                           (messages st) j))
                 (seq 0 (match fst (loop str_eval_other fuel st) with
                         | Some _ => S k
                         | None => k
                         end)))%list
    /\ match fst (loop str_eval_other fuel st) with
       | None => k = fuel
       | Some final =>
           k < fuel
           /\ ((stop_reason (upcoming (loop_client st) k) <> "tool_use"
                /\ final = content0_text (upcoming (loop_client st) k))
               \/ (stop_reason (upcoming (loop_client st) k) = "tool_use"
                   /\ (forall rs,
                          run_tools str_eval_other
                            (content (upcoming (loop_client st) k))
                          <> Returned rs)
                   /\ final
                      = match run_tools str_eval_other
                                (content (upcoming (loop_client st) k)) with
                        | Raised e => Raised e
                        | _ => NoReturn
                        end))
       end.
Proof.
  induction fuel as [|fuel IH]; intros st.
  - exists 0. cbn [loop fst snd seq map]. rewrite history_after_0, app_nil_r.
    split; [lia|]. split; [reflexivity|]. split; [intros j Hj; lia|].
    split; reflexivity.
  - cbn [loop].
    destruct (String.eqb_spec (stop_reason (upcoming (loop_client st) 0))
                "tool_use") as [E | N].
    + destruct (run_tools str_eval_other
                  (content (upcoming (loop_client st) 0))) as [rs | e |] eqn:R.
      * rewrite (loop_body_tool_use str_eval_other st rs E R).
        match goal with
        | |- context [loop str_eval_other fuel ?s] =>
            destruct (IH s) as (k & Hk & Hm & Hj & Hi & Hf);
            set (next := s) in *
        end.
        cbn [messages loop_client next] in Hm, Hj, Hi, Hf.
        exists (S k). split; [lia|]. split; [|split; [|split]].
        -- rewrite Hm. apply history_after_shift.
        -- intros [|j] Hlt.
           ++ split; [exact E | now exists rs].
           ++ rewrite <- upcoming_after. apply Hj. lia.
        -- rewrite Hi, loop_request_logged, <- app_assoc. f_equal.
           assert (Hshift : forall n,
                     (tool_request (messages st)
                        :: map (fun j =>
                                  tool_request
                                    (history_after str_eval_other
                                       (after_request st)
                                       (messages st
                                          ++ turn_records str_eval_other
                                               (upcoming (loop_client st) 0))
                                       j)) (seq 0 n))%list
                     = map (fun j =>
                              tool_request
                                (history_after str_eval_other (loop_client st)
                                   (messages st) j)) (seq 0 (S n))).
           { intros n. cbn [seq map]. rewrite history_after_0. f_equal.
             rewrite <- seq_shift, map_map. apply map_ext.
             intros j. now rewrite history_after_shift. }
           destruct (fst (loop str_eval_other fuel next)); apply Hshift.
        -- destruct (fst (loop str_eval_other fuel next)) as [final|].
           ++ rewrite !upcoming_after in Hf.
              destruct Hf as [Hlt Hf]. split; [lia | exact Hf].
           ++ now rewrite Hf.
      * rewrite loop_body_tool_fault;
          [|exact E | intros rs; rewrite R; discriminate].
        exists 0. cbn [fst snd messages loop_client seq map].
        rewrite history_after_0, loop_request_logged, R.
        split; [lia|]. split; [reflexivity|]. split; [intros j Hj; lia|].
        split; [reflexivity|]. split; [lia|]. right.
        split; [exact E|]. split; [intros rs; discriminate | reflexivity].
      * rewrite loop_body_tool_fault;
          [|exact E | intros rs; rewrite R; discriminate].
        exists 0. cbn [fst snd messages loop_client seq map].
        rewrite history_after_0, loop_request_logged, R.
        split; [lia|]. split; [reflexivity|]. split; [intros j Hj; lia|].
        split; [reflexivity|]. split; [lia|]. right.
        split; [exact E|]. split; [intros rs; discriminate | reflexivity].
    + rewrite loop_body_final by exact N.
      exists 0. cbn [fst snd messages loop_client seq map].
      rewrite history_after_0, loop_request_logged.
      split; [lia|]. split; [reflexivity|]. split; [intros j Hj; lia|].
      split; [reflexivity|]. split; [lia|].
      left. split; [exact N | reflexivity].
Qed.

Lemma history_after_S (c : client) (start : list message) (k : nat) :
  history_after str_eval_other c start (S k)
  = (history_after str_eval_other c start k
       ++ turn_records str_eval_other (upcoming c k))%list.
Proof.
  unfold history_after. rewrite seq_S, flat_map_app, app_assoc.
  cbn [flat_map Nat.add]. now rewrite app_nil_r.
Qed.

Lemma history_after_roles (c : client) (k : nat) :
  alternates user (history_after str_eval_other c initial_messages k) = true
  /\ List.length (history_after str_eval_other c initial_messages k)
     = 2 * k + 1.
Proof.
  induction k as [|k [IHa IHl]].
  - rewrite history_after_0. split; reflexivity.
  - rewrite history_after_S, alternates_app, length_app, IHa, IHl.
    split; [|simpl; lia].
    replace (2 * k + 1) with (S (2 * k)) by lia.
    rewrite Nat.even_succ, Nat.odd_mul. reflexivity.
Qed.

Lemma run_tools_app_fault (before after : list block) (id name : string)
    (input : tool_input) (e : exn) : forall rs,
  run_tools str_eval_other before = Returned rs ->
  call_tool str_eval_other name input = Raised e ->
  run_tools str_eval_other (before ++ ToolUseBlock id name input :: after)%list
  = Raised e.
Proof.
  induction before as [|b before IH]; intros rs Hb Hc.
  - simpl. now rewrite Hc.
  - destruct b as [t | id' name' input' | th]; simpl in *; eauto.
    destruct (call_tool str_eval_other name' input'); try discriminate Hb.
    simpl in *.
    destruct (run_tools str_eval_other before) as [rs' | |] eqn:R;
      try discriminate Hb.
    now rewrite (IH rs' eq_refl Hc).
Qed.

End WithEval.

(** X10.  The dispatch raises [KeyError] exactly for a tool name that is
    neither get_weather nor calculator, whatever the input. *)
Theorem unknown_tool_is_key_error (str_eval_other : string -> outcome string)
    (name : string) (input : tool_input) :
  call_tool str_eval_other name input = Raised KeyError
  <-> (name <> "get_weather" /\ name <> "calculator").
Proof.
  unfold call_tool.
  destruct (String.eqb_spec name "get_weather") as [-> | N1].
  - split; [|intros [H _]; congruence].
    destruct (bind_kwargs_outcome "location" input) as [(v & _ & ->) | [_ ->]];
      simpl; discriminate.
  - destruct (String.eqb_spec name "calculator") as [-> | N2].
    + split; [|intros [_ H]; congruence].
      destruct (bind_kwargs_outcome "expression" input)
        as [(v & _ & ->) | [_ ->]]; simpl; [|discriminate].
      intros H. exfalso. revert H. apply calculator_never_raises.
    + split; auto.
Qed.

(** X11.  The dispatch raises [TypeError] exactly when the name is one of
    the two tools and the input is not the single argument that tool
    takes. *)
Theorem wrong_arguments_are_type_error
    (str_eval_other : string -> outcome string)
    (name : string) (input : tool_input) :
  call_tool str_eval_other name input = Raised TypeError
  <-> (name = "get_weather"
       /\ ~ exists location, input = [("location", location)])
      \/ (name = "calculator"
          /\ ~ exists expression, input = [("expression", expression)]).
Proof.
  unfold call_tool.
  destruct (String.eqb_spec name "get_weather") as [-> | N1].
  - destruct (bind_kwargs_outcome "location" input) as [(v & E & ->) | [N ->]];
      simpl.
    + split; [discriminate|].
      intros [[_ H] | [H _]]; [|discriminate H].
      exfalso. apply H. now exists v.
    + split; auto.
  - destruct (String.eqb_spec name "calculator") as [-> | N2].
    + destruct (bind_kwargs_outcome "expression" input)
        as [(v & E & ->) | [N ->]]; simpl.
      * split.
        -- intros H. exfalso. revert H. apply calculator_never_raises.
        -- intros [[H _] | [_ H]]; [discriminate H|].
           exfalso. apply H. now exists v.
      * split; auto.
    + split; [discriminate|]. intros [[H _] | [H _]]; congruence.
Qed.

(** X12.  The first tool call that raises ends the iteration: the tools
    before it have run, no tool after it runs, and the loop stops with that
    exception and with [messages] as it was, no record of the response
    being kept. *)
Theorem first_failing_tool_stops_loop
    (str_eval_other : string -> outcome string) (st : loop_state)
    (before after : list block) (id name : string) (input : tool_input)
    (rs : list tool_result) (e : exn) :
  stop_reason (upcoming (loop_client st) 0) = "tool_use" ->
  content (upcoming (loop_client st) 0)
  = (before ++ ToolUseBlock id name input :: after)%list ->
  run_tools str_eval_other before = Returned rs ->
  call_tool str_eval_other name input = Raised e ->
  loop_body str_eval_other st
  = Stop (Raised e)
      {| messages := messages st; loop_client := after_request st |}.
Proof.
  intros Hs Hc Hb He.
  pose proof (run_tools_app_fault str_eval_other before after id name input e
                rs Hb He) as R.
  rewrite <- Hc in R.
  rewrite loop_body_tool_fault; [now rewrite R | exact Hs |].
  intros rs'. rewrite R. discriminate.
Qed.

Lemma first_failing_tool_stops_loop_witness :
  call_tool rejecting "get_time" [] = Raised KeyError
  /\ loop_body rejecting
       {| messages := initial_messages;
          loop_client := fresh_client (fun _ => second_tool_unknown) |}
     = Stop (Raised KeyError)
         {| messages := initial_messages;
            loop_client :=
              after_request
                {| messages := initial_messages;
                   loop_client :=
                     fresh_client (fun _ => second_tool_unknown) |} |}.
Proof.
  split; [reflexivity|].
  apply (first_failing_tool_stops_loop rejecting
           {| messages := initial_messages;
              loop_client := fresh_client (fun _ => second_tool_unknown) |}
           [ToolUseBlock "toolu_01" "get_weather" [("location", JStr "Paris")]]
           [ToolUseBlock "toolu_03" "get_weather" [("location", JStr "Rome")]]
           "toolu_02" "get_time" []
           [{| tool_use_id := "toolu_01";
               result_content := get_weather (JStr "Paris") |}]
           KeyError); reflexivity.
Defined.

(** X13.  Every run of [tool_using_agent], whatever the responses and
    however long it is watched: some number [k] of tool-use responses whose
    tools all returned has been worked off, [messages] is the opening
    message followed by the two records of each of them, and either the loop
    is still running after [k] requests, or it stopped on response [k] after
    [k + 1] requests, with the text of its first block (or the fault of
    reading it) when its stop reason is not tool_use, and with the failure
    of a tool call otherwise. *)
Theorem tool_loop_run_shape (str_eval_other : string -> outcome string)
    (c : client) (fuel : nat) :
  let run := tool_using_agent str_eval_other fuel c in
  exists k,
    k <= fuel
    /\ messages (snd run) = history_after str_eval_other c initial_messages k
    /\ (forall j, j < k ->
          stop_reason (upcoming c j) = "tool_use"
          /\ exists rs,
               run_tools str_eval_other (content (upcoming c j))
               = Returned rs)
    /\ match fst run with
       | None => k = fuel /\ requests_between c (loop_client (snd run)) = k
       | Some final =>
           requests_between c (loop_client (snd run)) = S k
           /\ ((stop_reason (upcoming c k) <> "tool_use"
                /\ final = content0_text (upcoming c k))
               \/ (stop_reason (upcoming c k) = "tool_use"
                   /\ (forall rs,
                          run_tools str_eval_other (content (upcoming c k))
                          <> Returned rs)
                   /\ final
                      = match run_tools str_eval_other
                                (content (upcoming c k)) with
                        | Raised e => Raised e
                        | _ => NoReturn
                        end))
       end.
Proof.
  intros run. subst run. unfold tool_using_agent.
  set (st := {| messages := initial_messages; loop_client := c |}).
  destruct (loop_shape str_eval_other fuel st) as (k & Hk & Hm & Hj & Hi & Hf).
  exists k. split; [exact Hk|]. split; [exact Hm|]. split; [exact Hj|].
  unfold requests_between. rewrite Hi. cbn [st loop_client].
  destruct (fst (loop str_eval_other fuel st)) as [final|].
  - split; [|apply Hf].
    rewrite length_app, length_map, length_seq. lia.
  - split; [exact Hf|].
    rewrite length_app, length_map, length_seq. lia.
Qed.

(** X14.  Every request of the loop carries both tool schemas and the whole
    history of its moment: the request number [j] (from zero) holds the
    opening message and the two records of each of the [j] responses before
    it, [2 j + 1] messages in all, so the requests grow without bound as the
    loop goes on. *)
Theorem tool_loop_requests_carry_history
    (str_eval_other : string -> outcome string) (c : client) (fuel : nat) :
  exists n,
    n <= fuel
    /\ issued (loop_client (snd (tool_using_agent str_eval_other fuel c)))
       = (issued c
            ++ map (fun j =>
                      tool_request
                        (history_after str_eval_other c initial_messages j))
                 (seq 0 n))%list
    /\ forall j,
         List.length (history_after str_eval_other c initial_messages j)
         = 2 * j + 1.
Proof.
  unfold tool_using_agent.
  set (st := {| messages := initial_messages; loop_client := c |}).
  destruct (loop_shape str_eval_other fuel st) as (k & Hk & _ & _ & Hi & Hf).
  cbn [st loop_client messages] in Hi, Hf.
  destruct (fst (loop str_eval_other fuel st)) as [final|].
  - exists (S k). split; [destruct Hf as [Hlt _]; lia|].
    split; [exact Hi|]. intros j. apply history_after_roles.
  - exists k. split; [exact Hk|]. split; [exact Hi|].
    intros j. apply history_after_roles.
Qed.

(** X15.  Whatever the responses, [messages] keeps the shape the
    completion interface expects: roles alternate from the opening user
    message on, and the list always ends on a user record (the opening
    message or a record of tool results), its length being odd. *)
Theorem tool_loop_roles_alternate (str_eval_other : string -> outcome string)
    (c : client) (fuel : nat) :
  let run := tool_using_agent str_eval_other fuel c in
  alternates user (messages (snd run)) = true
  /\ Nat.odd (List.length (messages (snd run))) = true
  /\ forall d, msg_role (last (messages (snd run)) d) = user.
Proof.
  intros run. subst run. unfold tool_using_agent.
  set (st := {| messages := initial_messages; loop_client := c |}).
  destruct (loop_shape str_eval_other fuel st) as (k & _ & Hm & _).
  cbn [st loop_client messages] in Hm. rewrite Hm.
  destruct (history_after_roles str_eval_other c k) as [Ha Hl].
  split; [exact Ha|]. split.
  - rewrite Hl. replace (2 * k + 1) with (S (2 * k)) by lia.
    now rewrite Nat.odd_succ, Nat.even_mul.
  - intros d. destruct k as [|k].
    + rewrite history_after_0. reflexivity.
    + rewrite history_after_S. unfold turn_records.
      match goal with
      | |- context [(?l ++ [?a; ?u])%list] =>
          change (l ++ [a; u])%list with (l ++ [a] ++ [u])%list
      end.
      rewrite app_assoc, last_last. reflexivity.
Qed.

(** X16.  After [k] tool-use responses whose tools return, a response with
    another stop reason that does not begin with a text block makes the
    agent raise after [k + 1] requests: [IndexError] when it has no content
    block, [AttributeError] otherwise. *)
Theorem tool_loop_final_fault (str_eval_other : string -> outcome string)
    (c : client) (k fuel : nat) :
  (forall j, j < k ->
     stop_reason (upcoming c j) = "tool_use"
     /\ exists tool_results,
          run_tools str_eval_other (content (upcoming c j))
          = Returned tool_results) ->
  stop_reason (upcoming c k) <> "tool_use" ->
  (forall text others, content (upcoming c k) <> TextBlock text :: others) ->
  k < fuel ->
  let run := tool_using_agent str_eval_other fuel c in
  fst run
  = Some (Raised match content (upcoming c k) with
                 | [] => IndexError
                 | _ :: _ => AttributeError
                 end)
  /\ requests_between c (loop_client (snd run)) = S k
  /\ messages (snd run) = history_after str_eval_other c initial_messages k.
Proof.
  intros Htools Hlast Hfirst Hfuel run. subst run. unfold tool_using_agent.
  set (st := {| messages := initial_messages; loop_client := c |}).
  destruct (loop_dispatch str_eval_other k st fuel Htools Hlast Hfuel)
    as (H1 & H2 & H3).
  cbn [st loop_client messages] in H1, H2, H3.
  split; [|split].
  - rewrite H1. unfold content0_text.
    destruct (content (upcoming c k)) as [|[t| |] bs]; try reflexivity.
    exfalso. now apply (Hfirst t bs).
  - unfold requests_between. rewrite H2. lia.
  - exact H3.
Qed.

Lemma tool_loop_final_fault_witness :
  content (upcoming (fresh_client tools_then_silence) 1) = []
  /\ fst (tool_using_agent rejecting 5 (fresh_client tools_then_silence))
     = Some (Raised IndexError).
Proof.
  split; [reflexivity|].
  apply (tool_loop_final_fault rejecting (fresh_client tools_then_silence) 1 5).
  - intros j Hj. assert (j = 0) as -> by lia.
    split; [reflexivity | eexists; reflexivity].
  - discriminate.
  - intros text others E. discriminate E.
  - lia.
Defined.

End ToolAgentMore.

(** ** Two-phase planning *)

Module ReasoningFacts.

Import Reasoning PyStrFacts.

(** X17.  When the planning response begins with a text block,
    [reasoning_agent] issues exactly two requests, neither with tools: the
    planning request, then the execution request that replays the task, the
    plan as the assistant's turn, and the instruction to execute it.  What it
    gives back is the text of the first block of the second response, or the
    fault of reading it. *)
Theorem reasoning_agent_two_requests (c : client) (complex_task plan : string)
    (others : list block) :
  content (upcoming c 0) = TextBlock plan :: others ->
  let run := reasoning_agent c complex_task in
  issued (snd run)
  = (issued c ++ [ planning_request complex_task;
                   execution_request complex_task plan ])%list
  /\ fst run = content0_text (upcoming c 1).
Proof.
  intros H run. subst run.
  assert (E : content0_text (upcoming c 0) = Returned plan)
    by (unfold content0_text; now rewrite H).
  unfold reasoning_agent, messages_create, upcoming in *.
  rewrite Nat.add_0_r in E. rewrite E.
  cbn [fst snd issued script]. rewrite length_app, <- app_assoc.
  split; reflexivity.
Qed.

Lemma reasoning_agent_two_requests_witness :
  content (upcoming steps_reply 0) = [TextBlock "1. Book flights"]
  /\ issued (snd (reasoning_agent steps_reply "Plan a week-long trip to Japan"))
     = [ planning_request "Plan a week-long trip to Japan";
         execution_request "Plan a week-long trip to Japan" "1. Book flights" ].
Proof.
  split; [reflexivity|].
  apply (reasoning_agent_two_requests steps_reply
           "Plan a week-long trip to Japan" "1. Book flights" []).
  reflexivity.
Defined.

(** X18.  When the planning response does not begin with a text block the
    agent raises after the planning request alone; the execution request is
    never issued. *)
Theorem reasoning_agent_planning_fault (c : client) (complex_task : string) :
  (forall text others, content (upcoming c 0) <> TextBlock text :: others) ->
  let run := reasoning_agent c complex_task in
  issued (snd run) = (issued c ++ [planning_request complex_task])%list
  /\ fst run
     = Raised match content (upcoming c 0) with
              | [] => IndexError
              | _ :: _ => AttributeError
              end.
Proof.
  intros H run. subst run.
  unfold reasoning_agent, messages_create, upcoming, content0_text in *.
  rewrite Nat.add_0_r in *. cbn [fst snd].
  destruct (content (script c (List.length (issued c)))) as [|[t| |] bs];
    cbn [fst snd issued]; try (split; reflexivity).
  exfalso. now apply (H t bs).
Qed.

Lemma reasoning_agent_planning_fault_witness :
  content (upcoming tool_only_reply 0)
  = [ToolUseBlock "toolu_01" "search_web" []]
  /\ fst (reasoning_agent tool_only_reply "Plan a week-long trip to Japan")
     = Raised AttributeError.
Proof.
  split; [reflexivity|].
  apply (reasoning_agent_planning_fault tool_only_reply
           "Plan a week-long trip to Japan").
  intros text others E. discriminate E.
Defined.

(** X19.  The user turn replayed in the execution request is never the
    prompt of the planning request: the planning prompt has a second line of
    twelve blanks, which the replayed text lacks, and they agree otherwise. *)
Theorem replayed_prompt_differs (complex_task : string) :
  planning_prompt complex_task <> replayed_prompt complex_task
  /\ exists before after,
       planning_prompt complex_task = before ++ "            " ++ after
       /\ replayed_prompt complex_task = before ++ after.
Proof.
  split.
  - unfold planning_prompt, replayed_prompt. simpl. discriminate.
  - exists ("Break down this task into clear steps:" ++ nl).
    exists (nl ++ "Task: " ++ complex_task ++ nl ++ nl
              ++ "Provide a numbered list of steps needed.").
    unfold planning_prompt, replayed_prompt.
    rewrite !append_assoc. split; reflexivity.
Qed.

End ReasoningFacts.

(** ** Streaming pass-through *)

Module StreamingFacts.

Import Streaming PyStrFacts.

Lemma concat_empty_cons (x : string) (xs : list string) :
  String.concat EmptyString (x :: xs) = x ++ String.concat EmptyString xs.
Proof. destruct xs; simpl; [now rewrite append_nil_r | reflexivity]. Qed.

Lemma fold_print (text_stream : list string) : forall stdout,
  fold_left (fun stdout text => print text EmptyString stdout)
    text_stream stdout
  = stdout ++ String.concat EmptyString text_stream.
Proof.
  induction text_stream as [|x xs IH]; intros stdout.
  - simpl. now rewrite append_nil_r.
  - cbn [fold_left]. rewrite IH, concat_empty_cons. unfold print.
    now rewrite append_nil_r, append_assoc.
Qed.

(** X20.  [streaming_agent] writes the fragments in the order they arrive,
    with nothing between them, and one line feed at the end: the output
    added is the whole text followed by a line feed, however the text was
    cut into fragments. *)
Theorem streaming_prints_whole_text (text_stream : list string)
    (stdout : string) :
  streaming_agent text_stream stdout
  = stdout ++ String.concat EmptyString text_stream ++ nl
  /\ forall other_stream,
       String.concat EmptyString other_stream
       = String.concat EmptyString text_stream ->
       streaming_agent other_stream stdout
       = streaming_agent text_stream stdout.
Proof.
  assert (E : forall fragments,
             streaming_agent fragments stdout
             = stdout ++ String.concat EmptyString fragments ++ nl).
  { intros fragments. unfold streaming_agent. rewrite fold_print.
    unfold print. simpl. now rewrite append_assoc. }
  split; [apply E|].
  intros other_stream H. now rewrite !E, H.
Qed.

End StreamingFacts.

(** ** More on the bounded autonomous loop *)

Module AutonomousMore.

Import Autonomous Conversation ConversationFacts AutonomousFacts.

#[local] Arguments messages_create : simpl never.

Lemma task_history_0 (c : client) (start : list message) :
  task_history c start 0 = start.
Proof. unfold task_history. simpl. apply app_nil_r. Qed.

Lemma task_history_S (c : client) (start : list message) (m : nat) :
  task_history c start (S m)
  = (task_history c start m ++ step_records (upcoming c m))%list.
Proof.
  unfold task_history. rewrite seq_S, flat_map_app, app_assoc.
  cbn [flat_map Nat.add]. now rewrite app_nil_r.
Qed.

Lemma task_history_shift (c : client) (req : request) (start : list message)
    (m : nat) :
  task_history (snd (messages_create c req))
    (start ++ step_records (upcoming c 0))%list m
  = task_history c start (S m).
Proof.
  unfold task_history. rewrite <- app_assoc. f_equal.
  cbn [seq flat_map]. f_equal.
  rewrite ToolAgentFacts.flat_map_seq_shift.
  apply flat_map_ext. intros j. now rewrite upcoming_after_request.
Qed.

(** An iteration whose response does not end the turn. *)
Lemma iterate_continue (k : nat) (self : AutonomousAgent) :
  stop_reason (upcoming (agent_client self) 0) <> "end_turn" ->
  iterate (S k) self
  = iterate k
      {| agent_client :=
           snd (messages_create (agent_client self)
                  (task_request (agent_tools self)
                     (conversation_history self)));
         conversation_history :=
           (conversation_history self
              ++ step_records (upcoming (agent_client self) 0))%list;
         agent_tools := agent_tools self |}.
Proof.
  intros N. rewrite iterate_step. apply String.eqb_neq in N. rewrite N.
  unfold step_records, append_message, task_request.
  destruct (String.eqb _ "tool_use"); cbn [conversation_history agent_client
                                           agent_tools].
  - now rewrite <- app_assoc.
  - now rewrite app_nil_r.
Qed.

(** Every run of the loop: [m] responses that did not end the turn have
    been worked off, the history holds what they added, each request carried
    the history of its moment, and the loop ended either on the bound or on
    an end of turn. *)
Lemma iterate_shape (k : nat) : forall self,
  exists m n,
    m <= k
    /\ (forall j, j < m ->
          stop_reason (upcoming (agent_client self) j) <> "end_turn")
    /\ conversation_history (snd (iterate k self))
       = task_history (agent_client self) (conversation_history self) m
    /\ agent_tools (snd (iterate k self)) = agent_tools self
    /\ issued (agent_client (snd (iterate k self)))
       = (issued (agent_client self)
            ++ map (fun j =>
                      task_request (agent_tools self)
                        (task_history (agent_client self)
                           (conversation_history self) j))
                 (seq 0 n))%list
    /\ ((m = k /\ n = k /\ fst (iterate k self) = Some sentinel)
        \/ (m < k /\ n = S m
            /\ stop_reason (upcoming (agent_client self) m) = "end_turn"
            /\ fst (iterate k self)
               = first_text (content (upcoming (agent_client self) m)))).
Proof.
  induction k as [|k IH]; intros self.
  - exists 0, 0. cbn [iterate fst snd seq map].
    rewrite task_history_0, app_nil_r.
    split; [lia|]. split; [intros j Hj; lia|]. split; [reflexivity|].
    split; [reflexivity|]. split; [reflexivity|]. left. auto.
  - destruct (String.eqb_spec (stop_reason (upcoming (agent_client self) 0))
                "end_turn") as [E | N].
    + exists 0, 1. rewrite iterate_step, E.
      cbn [String.eqb fst snd seq map agent_client conversation_history
           agent_tools].
      rewrite task_history_0.
      split; [lia|]. split; [intros j Hj; lia|]. split; [reflexivity|].
      split; [reflexivity|]. split; [reflexivity|].
      right. split; [lia|]. split; [reflexivity|]. split; reflexivity.
    + rewrite (iterate_continue k self N).
      match goal with
      | |- context [iterate k ?s] =>
          destruct (IH s) as (m & n & Hm & Hj & Hh & Ht & Hi & Hf);
          set (next := s) in *
      end.
      cbn [agent_client conversation_history agent_tools next]
        in Hj, Hh, Ht, Hi, Hf.
      exists (S m), (S n). split; [lia|].
      split; [|split; [|split; [|split]]].
      * intros [|j] Hlt; [exact N|].
        rewrite <- (upcoming_after_request (agent_client self)
                      (task_request (agent_tools self)
                         (conversation_history self))).
        apply Hj. lia.
      * rewrite Hh. apply task_history_shift.
      * exact Ht.
      * rewrite Hi. unfold messages_create at 1. cbn [snd issued].
        rewrite <- app_assoc. f_equal. cbn [seq map app].
        rewrite task_history_0. f_equal.
        rewrite <- seq_shift, map_map. apply map_ext.
        intros j. now rewrite task_history_shift.
      * rewrite !upcoming_after_request in Hf.
        destruct Hf as [(-> & -> & Hf) | (Hlt & -> & He & Hf)].
        -- left. auto.
        -- right. split; [lia|]. auto.
Qed.

Lemma execute_task_shape (self : AutonomousAgent) (task : string)
    (max_iterations : Z) :
  let c := agent_client self in
  let run := execute_task self task max_iterations in
  exists m n,
    m <= Z.to_nat max_iterations
    /\ (forall j, j < m -> stop_reason (upcoming c j) <> "end_turn")
    /\ conversation_history (snd run) = task_history c [task_record task] m
    /\ agent_tools (snd run) = agent_tools self
    /\ issued (agent_client (snd run))
       = (issued c
            ++ map (fun j =>
                      task_request (agent_tools self)
                        (task_history c [task_record task] j))
                 (seq 0 n))%list
    /\ ((m = Z.to_nat max_iterations /\ n = m /\ fst run = Some sentinel)
        \/ (m < Z.to_nat max_iterations /\ n = S m
            /\ stop_reason (upcoming c m) = "end_turn"
            /\ fst run = first_text (content (upcoming c m)))).
Proof.
  intros c run. subst c run. unfold execute_task.
  match goal with
  | |- context [iterate ?k ?s] =>
      destruct (iterate_shape k s) as (m & n & H)
  end.
  exists m, n. cbn [agent_client conversation_history agent_tools] in H.
  destruct H as (H1 & H2 & H3 & H4 & H5 & H6).
  repeat (split; [assumption|]).
  destruct H6 as [(-> & -> & H6) | H6]; [left | right]; auto.
Qed.

Lemma task_history_roles (c : client) (task : string) (m : nat) :
  alternates user (task_history c [task_record task] m) = true
  /\ Nat.odd (List.length (task_history c [task_record task] m)) = true
  /\ (forall d, msg_role (last (task_history c [task_record task] m) d) = user)
  /\ exists rest,
       task_history c [task_record task] m = task_record task :: rest.
Proof.
  induction m as [|m (IHa & IHl & IHd & rest & IHr)].
  - rewrite task_history_0. repeat split. now exists [].
  - rewrite task_history_S. unfold step_records.
    destruct (String.eqb _ "tool_use").
    + assert (He : Nat.even
                     (List.length (task_history c [task_record task] m))
                   = false)
        by (now rewrite <- Nat.negb_odd, IHl).
      split; [|split; [|split]].
      * rewrite alternates_app, IHa, He. reflexivity.
      * rewrite length_app. cbn [List.length].
        replace (List.length (task_history c [task_record task] m) + 2)
          with (S (S (List.length (task_history c [task_record task] m))))
          by lia.
        now rewrite Nat.odd_succ_succ.
      * intros d.
        match goal with
        | |- context [(?l ++ [?a; ?u])%list] =>
            change (l ++ [a; u])%list with (l ++ [a] ++ [u])%list
        end.
        rewrite app_assoc, last_last. reflexivity.
      * rewrite IHr. eexists. reflexivity.
    + rewrite app_nil_r. repeat split; auto. now exists rest.
Qed.

Lemma task_history_idle (c : client) (start : list message) (m : nat) :
  (forall j, j < m -> stop_reason (upcoming c j) <> "tool_use") ->
  task_history c start m = start.
Proof.
  induction m as [|m IH]; intros H.
  - apply task_history_0.
  - rewrite task_history_S, IH by (intros j Hj; apply H; lia).
    unfold step_records.
    destruct (String.eqb_spec (stop_reason (upcoming c m)) "tool_use")
      as [E | _]; [|apply app_nil_r].
    exfalso. apply (H m); [lia | exact E].
Qed.


(** X22.  Every run of [execute_task]: some number [m] of responses that
    did not end the turn has been worked off, the history is the task prompt
    followed by what each of them added (two records for a tool-use
    response, nothing otherwise), the tools are unchanged, and the run ended
    either on the bound, with the sentinel after exactly [max_iterations]
    requests, or on the first end of turn, after exactly [m + 1] requests,
    the final response not being recorded in the history. *)
Theorem execute_task_run_shape (self : AutonomousAgent) (task : string)
    (max_iterations : Z) :
  let c := agent_client self in
  let run := execute_task self task max_iterations in
  exists m,
    m <= Z.to_nat max_iterations
    /\ (forall j, j < m -> stop_reason (upcoming c j) <> "end_turn")
    /\ conversation_history (snd run) = task_history c [task_record task] m
    /\ agent_tools (snd run) = agent_tools self
    /\ ((m = Z.to_nat max_iterations
         /\ fst run = Some "Max iterations reached"
         /\ requests_issued self (snd run) = m)
        \/ (m < Z.to_nat max_iterations
            /\ stop_reason (upcoming c m) = "end_turn"
            /\ fst run = first_text (content (upcoming c m))
            /\ requests_issued self (snd run) = S m)).
Proof.
  intros c run.
  destruct (execute_task_shape self task max_iterations)
    as (m & n & H1 & H2 & H3 & H4 & H5 & H6).
  fold c run in H1, H2, H3, H4, H5, H6.
  exists m. repeat (split; [assumption|]).
  assert (R : requests_issued self (snd run) = n).
  { unfold requests_issued, requests_between. fold c. rewrite H5.
    rewrite length_app, length_map, length_seq. lia. }
  destruct H6 as [(E1 & E2 & E3) | (E1 & E2 & E3 & E4)]; [left | right].
  - split; [exact E1|]. split; [exact E3 | lia].
  - split; [exact E1|]. split; [exact E3|]. split; [exact E4 | lia].
Qed.

(** X23.  Every request of [execute_task] carries the tools of the agent
    and the whole history of its moment: request number [j] (from zero)
    holds the task prompt and what the [j] responses before it added. *)
Theorem execute_task_requests_carry_history (self : AutonomousAgent)
    (task : string) (max_iterations : Z) :
  exists n,
    n <= Z.to_nat max_iterations
    /\ issued (agent_client (snd (execute_task self task max_iterations)))
       = (issued (agent_client self)
            ++ map (fun j =>
                      task_request (agent_tools self)
                        (task_history (agent_client self)
                           [task_record task] j))
                 (seq 0 n))%list.
Proof.
  destruct (execute_task_shape self task max_iterations)
    as (m & n & H1 & _ & _ & _ & H5 & H6).
  exists n. split; [|exact H5].
  destruct H6 as [(E1 & E2 & _) | (E1 & E2 & _)]; lia.
Qed.

(** X24.  A stop reason that is neither end_turn nor tool_use changes
    nothing: when all responses within the bound are of that kind, the same
    request, holding the task prompt alone, is issued [max_iterations] times
    and the sentinel is returned. *)
Theorem execute_task_repeats_request (self : AutonomousAgent) (task : string)
    (max_iterations : Z) :
  (forall i, i < Z.to_nat max_iterations ->
     stop_reason (upcoming (agent_client self) i) <> "end_turn"
     /\ stop_reason (upcoming (agent_client self) i) <> "tool_use") ->
  let run := execute_task self task max_iterations in
  issued (agent_client (snd run))
  = (issued (agent_client self)
       ++ repeat (task_request (agent_tools self) [task_record task])
            (Z.to_nat max_iterations))%list
  /\ conversation_history (snd run) = [task_record task]
  /\ fst run = Some "Max iterations reached".
Proof.
  intros H run.
  destruct (execute_task_shape self task max_iterations)
    as (m & n & H1 & H2 & H3 & H4 & H5 & H6).
  fold run in H3, H4, H5, H6.
  destruct H6 as [(E1 & E2 & E3) | (E1 & _ & E3 & _)].
  - subst n. rewrite <- E1. split; [|split; [|exact E3]].
    + rewrite H5. f_equal.
      assert (G : forall k, k <= m ->
                    map (fun j =>
                           task_request (agent_tools self)
                             (task_history (agent_client self)
                                [task_record task] j)) (seq 0 k)
                    = repeat (task_request (agent_tools self)
                                [task_record task]) k).
      { induction k as [|k IHk]; intros Hk; [reflexivity|].
        rewrite seq_S, map_app, IHk by lia. cbn [map Nat.add].
        rewrite task_history_idle by (intros j Hj; apply H; lia).
        rewrite <- repeat_cons. reflexivity. }
      apply G. lia.
    + rewrite H3. apply task_history_idle. intros j Hj. apply H. lia.
  - exfalso. destruct (H m E1) as [Hend _]. now apply Hend.
Qed.

Lemma execute_task_repeats_request_witness :
  stop_reason (cut_short 0) = "max_tokens"
  /\ conversation_history
       (snd (execute_task (__init__ (fresh_client cut_short))
               "Research recent AI developments and summarize" 3))
     = [task_record "Research recent AI developments and summarize"].
Proof.
  split; [reflexivity|].
  apply (execute_task_repeats_request (__init__ (fresh_client cut_short))
           "Research recent AI developments and summarize" 3).
  intros i Hi. split; discriminate.
Defined.

(** X25.  Whatever the responses, the history [execute_task] leaves opens
    with the task prompt, alternates user and assistant records, has odd
    length and ends on a user record: the response that ended the turn is
    never recorded. *)
Theorem execute_task_roles_alternate (self : AutonomousAgent) (task : string)
    (max_iterations : Z) :
  let h := conversation_history (snd (execute_task self task max_iterations)) in
  alternates user h = true
  /\ Nat.odd (List.length h) = true
  /\ (forall d, msg_role (last h d) = user)
  /\ exists rest, h = task_record task :: rest.
Proof.
  intros h. subst h.
  destruct (execute_task_shape self task max_iterations)
    as (m & n & _ & _ & H3 & _).
  rewrite H3. apply task_history_roles.
Qed.

(** X26.  Nothing of an earlier task is sent with a later one: when
    [execute_task] is called again on the agent an earlier call left, with a
    positive bound, its first request holds the new task prompt alone. *)
Theorem execute_task_forgets_previous_task (self : AutonomousAgent)
    (first_task second_task : string) (first_bound second_bound : Z) :
  (0 < second_bound)%Z ->
  let first := execute_task self first_task first_bound in
  let second := execute_task (snd first) second_task second_bound in
  nth_error (issued (agent_client (snd second)))
    (List.length (issued (agent_client (snd first))))
  = Some (task_request (agent_tools self) [task_record second_task]).
Proof.
  intros Hpos first second.
  destruct (execute_task_shape self first_task first_bound)
    as (_ & _ & _ & _ & _ & Ht & _ & _).
  destruct (execute_task_shape (snd first) second_task second_bound)
    as (m & n & H1 & _ & _ & _ & H5 & H6).
  fold first in Ht. fold second in H5. rewrite H5, Ht.
  rewrite nth_error_app2, Nat.sub_diag by lia.
  assert (Hn : n = S (pred n))
    by (destruct H6 as [(? & ? & _) | (_ & ? & _)]; lia).
  rewrite Hn. cbn [seq map nth_error]. now rewrite task_history_0.
Qed.

Lemma execute_task_forgets_previous_task_witness :
  (0 < 2)%Z
  /\ nth_error
       (issued
          (agent_client
             (snd (execute_task
                     (snd (execute_task
                             (__init__ (fresh_client search_then_answer))
                             "Research recent AI developments" 10))
                     "Write a report" 2))))
       (List.length
          (issued
             (agent_client
                (snd (execute_task
                        (__init__ (fresh_client search_then_answer))
                        "Research recent AI developments" 10)))))
     = Some (task_request _define_tools [task_record "Write a report"]).
Proof.
  split; [lia|].
  apply (execute_task_forgets_previous_task
           (__init__ (fresh_client search_then_answer))
           "Research recent AI developments" "Write a report" 10 2).
  lia.
Defined.

End AutonomousMore.
